(** * c3media: a client for the media.ccc.de API

    A shallow embedding of [c3media/utils.py], [c3media/constants.py],
    [c3media/models.py] and the query methods of [c3media/client.py],
    followed by the properties of the specification that they decide.

    Conventions of the embedding.
    - A Python [str] is a [string]; one [ascii] stands for one code point
      below 256.
    - A Python [int] is a [Z].
    - A [TypedDict] is a record.
    - Code that performs HTTP requests runs in the monad [M]: it threads the
      chronological list of requests issued so far and either returns a
      value or raises an exception. *)

From Stdlib Require Import String Ascii List ZArith Bool Arith Lia.
Import ListNotations.

Local Open Scope list_scope.
Local Open Scope string_scope.

(** ** Python string primitives *)

Module PyStr.

(** The line feed, the only character besides the end of the text in front
    of which the anchor [$] of [re] matches. *)
Definition LF : ascii := "010"%char.

(** The class [\d] of [re] on [str] patterns is the Unicode category Nd;
    below code point 256 it is exactly [0-9]. *)
Definition is_digit (c : ascii) : bool :=
  (48 <=? nat_of_ascii c)%nat && (nat_of_ascii c <=? 57)%nat.

Fixpoint all_digits (s : string) : bool :=
  match s with
  | EmptyString => true
  | String c s' => is_digit c && all_digits s'
  end.

(** [str.lower]: below code point 256 the cased upper-case letters are
    [A-Z], and [U+00C0-U+00DE] without the multiplication sign [U+00D7];
    each one is 32 below its lower-case letter. *)
Definition lower_char (c : ascii) : ascii :=
  let n := nat_of_ascii c in
  if ((65 <=? n) && (n <=? 90))%nat then ascii_of_nat (n + 32)
  else if ((192 <=? n) && (n <=? 222) && negb (n =? 215))%nat
       then ascii_of_nat (n + 32)
  else c.

Fixpoint lower (s : string) : string :=
  match s with
  | EmptyString => EmptyString
  | String c s' => String (lower_char c) (lower s')
  end.

(** [s.startswith(p)]. *)
Definition startswith (s p : string) : bool := prefix p s.

(** [s[len(p):]] when [s] starts with [p]. *)
Fixpoint strip_prefix (p s : string) : option string :=
  match p, s with
  | EmptyString, _ => Some s
  | String a p', String b s' =>
      if Ascii.eqb a b then strip_prefix p' s' else None
  | String _ _, EmptyString => None
  end.

(** [s.replace(old, new)] for a non-empty [old]: occurrences are replaced
    from the left and do not overlap. [skip] counts the characters of a
    replaced occurrence that are still to be dropped. *)
Fixpoint replace_from (old new : string) (skip : nat) (s : string) : string :=
  match s with
  | EmptyString => EmptyString
  | String c s' =>
      match skip with
      | S k => replace_from old new k s'
      | O =>
          if prefix old s
          then new ++ replace_from old new (String.length old - 1) s'
          else String c (replace_from old new 0 s')
      end
  end.

(** With an empty [old], Python puts [new] in front of every character and
    at the end. *)
Fixpoint intersperse (new s : string) : string :=
  match s with
  | EmptyString => new
  | String c s' => new ++ String c (intersperse new s')
  end.

Definition replace (s old new : string) : string :=
  match old with
  | EmptyString => intersperse new s
  | String _ _ => replace_from old new 0 s
  end.

(** The text on both sides of the last occurrence of the character [sep],
    if there is one. *)
Fixpoint rpartition (sep : ascii) (s : string) : option (string * string) :=
  match s with
  | EmptyString => None
  | String c s' =>
      match rpartition sep s' with
      | Some (a, b) => Some (String c a, b)
      | None => if Ascii.eqb c sep then Some (EmptyString, s') else None
      end
  end.

(** [s.rsplit(sep, 1)[0]]. *)
Definition rsplit1_head (sep : ascii) (s : string) : string :=
  match rpartition sep s with
  | Some (a, _) => a
  | None => s
  end.

(** [s.split(sep)[-1]]. *)
Definition split_last (sep : ascii) (s : string) : string :=
  match rpartition sep s with
  | Some (_, b) => b
  | None => s
  end.

Definition slash : ascii := "/"%char.

(** Truth value of a [str]. *)
Definition truthy (s : string) : bool :=
  match s with
  | EmptyString => false
  | String _ _ => true
  end.

End PyStr.

(** ** [c3media/utils.py] *)

Module Utils.
Import PyStr.

(** The anchor [$] without [re.MULTILINE]: at the end of the text, or in
    front of a line feed that is the last character. *)
Definition at_dollar (s : string) : bool :=
  match s with
  | EmptyString => true
  | String c EmptyString => Ascii.eqb c LF
  | String _ (String _ _) => false
  end.

(** [(\d+)$] matched at the start of [s]; the result is group 1. The
    quantifier is greedy: it first tries to consume one more digit, and
    gives the digit back when the rest of the pattern fails after it. *)
Fixpoint digits_dollar (s : string) : option string :=
  match s with
  | EmptyString => None
  | String c s' =>
      if is_digit c then
        match digits_dollar s' with
        | Some d => Some (String c d)
        | None => if at_dollar s' then Some (String c EmptyString) else None
        end
      else None
  end.

(** [re.match(r"/recordings/(\d+)$", s)]: the pattern tried at the start
    of [s] only. *)
Definition match_here (s : string) : option string :=
  match strip_prefix "/recordings/" s with
  | Some rest => digits_dollar rest
  | None => None
  end.

(** [re.search(r"/recordings/(\d+)$", s)]: the pattern is tried at every
    position from the left, and the first position where it matches
    wins. *)
Fixpoint re_search (s : string) : option string :=
  match match_here s with
  | Some d => Some d
  | None =>
      match s with
      | EmptyString => None
      | String _ s' => re_search s'
      end
  end.

(** [extract_recording_id(recording_url)]:
    [match.group(1) if match else None]. *)
Definition extract_recording_id (recording_url : string) : option string :=
  re_search recording_url.

End Utils.

(** ** Python list primitives *)

Module PyList.

Section Sorting.
Context {A : Type} (key : A -> Z).

(** One step of a stable ascending sort: [x], which stood in front of
    every element of the sorted [l], stays in front of the elements with
    an equal key. *)
Fixpoint insert_sorted (x : A) (l : list A) : list A :=
  match l with
  | [] => [x]
  | y :: l' =>
      if (key x <=? key y)%Z then x :: y :: l'
      else y :: insert_sorted x l'
  end.

(** [list.sort(key=key)]: a stable ascending sort. *)
Definition sort_stable (l : list A) : list A :=
  fold_right insert_sorted [] l.

(** [sorted(l, key=key, reverse=True)]. CPython reverses the list, sorts
    it ascending and reverses the result, which keeps elements with equal
    keys in their original order. *)
Definition sorted_reverse (l : list A) : list A :=
  rev (sort_stable (rev l)).
End Sorting.

(** Truth value of a [list]. *)
Definition truthy {A : Type} (l : list A) : bool :=
  match l with
  | [] => false
  | _ :: _ => true
  end.

End PyList.

(** ** [c3media/constants.py] *)

Module Constants.

Definition BASE_URL : string := "https://api.media.ccc.de/public".
Definition CDN_URL : string := "https://cdn.media.ccc.de".

(** The active entries of the dict, in insertion order; the other entries
    of the source are commented out. *)
Definition COMMON_LANGUAGES : list (string * string) :=
  [ ("eng", "English");
    ("deu", "German");
    ("eng-deu", "English-German") ].

(** [COMMON_LANGUAGES.keys()]. *)
Definition keys {K V : Type} (d : list (K * V)) : list K := map fst d.

End Constants.

(** ** [c3media/models.py] *)

Module Recording.
Record t : Type := {
  size : Z;
  length : Z;
  mime_type : string;
  language : string;
  filename : string;
  state : string;
  folder : string;
  high_quality : bool;
  width : Z;
  height : Z;
  updated_at : string;
  recording_url : string;
  url : string;
  event_url : string;
  conference_url : string
}.
End Recording.

(** [Event] is declared with [total=False]. The record keeps the keys that
    the client reads. [recordings] is [None] both when the key is missing and
    when its value is [None]: the client reads it through [dict.get] only,
    which does not tell the two apart. *)
Module Event.
Record t : Type := {
  guid : string;
  title : string;
  persons : list string;
  tags : list string;
  recordings : option (list Recording.t)
}.
End Event.

Module Conference.
Record t : Type := {
  acronym : string;
  aspect_ratio : string;
  updated_at : string;
  title : string;
  schedule_url : string;
  slug : string;
  event_last_released_at : string;
  link : string;
  description : string;
  webgen_location : string;
  logo_url : string;
  images_url : string;
  recordings_url : string;
  url : string;
  events : list Event.t
}.
End Conference.

Module Subtitle.
Record t : Type := {
  language : string;
  url : string;
  content : option string
}.
End Subtitle.

(** ** The HTTP session and the exceptions *)

Module Http.

(** A request that the client hands to its [requests.Session]. *)
Inductive request : Type :=
| GET (url : string)
| HEAD (url : string).

(** The decoded JSON body of a response, by the shape that it has. *)
Inductive payload : Type :=
| JConferences (conferences : list Conference.t)
| JConference (conference : Conference.t)
| JEvent (event : Event.t)
| JRecording (recording : Recording.t).

(** [requests.Response]: [json] is [None] when the body is not JSON. *)
Record response : Type := {
  status_code : Z;
  text : string;
  json : option payload
}.

(** What the transport does with a request: it fails, or it delivers the
    response of the server. *)
Inductive answer : Type :=
| Failed
| Delivered (r : response).

(** The remote side: the answer to a request, given the requests that were
    issued before it. *)
Definition network : Type := list request -> request -> answer.

(** The exceptions that the client raises or lets through.
    [ConnectionError] stands for every failure of the transport
    ([requests.ConnectionError], [requests.Timeout] and the like),
    [HTTPError] is raised by [raise_for_status], [JSONDecodeError] by
    [response.json()] and [ImportError] by the import of [fuzzywuzzy].
    [PayloadError] stands for what happens when a payload does not have the
    shape of the type that the client casts it to. *)
Inductive exn : Type :=
| ConnectionError
| HTTPError (status : Z)
| JSONDecodeError
| ImportError (msg : string)
| PayloadError.

(** [isinstance(e, requests.RequestException)]. *)
Definition is_RequestException (e : exn) : bool :=
  match e with
  | ConnectionError | HTTPError _ | JSONDecodeError => true
  | ImportError _ | PayloadError => false
  end.

Inductive result (A : Type) : Type :=
| Ok (a : A)
| Raise (e : exn).
Arguments Ok {A} a.
Arguments Raise {A} e.

(** A computation that issues requests: from the requests issued so far to
    the requests issued afterwards and the outcome. *)
Definition M (A : Type) : Type := list request -> list request * result A.

Definition ret {A : Type} (a : A) : M A := fun log => (log, Ok a).

Definition raise {A : Type} (e : exn) : M A := fun log => (log, Raise e).

Definition bind {A B : Type} (m : M A) (k : A -> M B) : M B :=
  fun log =>
    match m log with
    | (log', Ok a) => k a log'
    | (log', Raise e) => (log', Raise e)
    end.

(** [try: body  except requests.RequestException: handler]. *)
Definition try_except_RequestException {A : Type} (body handler : M A) : M A :=
  fun log =>
    match body log with
    | (log', Ok a) => (log', Ok a)
    | (log', Raise e) =>
        if is_RequestException e then handler log' else (log', Raise e)
    end.

(** [for x in xs: acc = body(x, acc)]. *)
Fixpoint for_each {A S : Type} (xs : list A) (body : A -> S -> M S) (acc : S)
  : M S :=
  match xs with
  | [] => ret acc
  | x :: xs' => bind (body x acc) (for_each xs' body)
  end.

Section Session.
Variable net : network.

Definition send (rq : request) : M response :=
  fun log =>
    ((log ++ [rq])%list,
     match net log rq with
     | Failed => Raise ConnectionError
     | Delivered r => Ok r
     end).

(** [self.session.get(url)]. *)
Definition session_get (url : string) : M response := send (GET url).

(** [self.session.head(url)]. *)
Definition session_head (url : string) : M response := send (HEAD url).
End Session.

(** [response.raise_for_status()]. *)
Definition raise_for_status (r : response) : M unit :=
  if ((400 <=? status_code r) && (status_code r <? 600))%Z
  then raise (HTTPError (status_code r))
  else ret tt.

(** [response.json()]. *)
Definition response_json (r : response) : M payload :=
  match json r with
  | Some p => ret p
  | None => raise JSONDecodeError
  end.

End Http.

Declare Scope py_scope.
Delimit Scope py_scope with py.
Notation "x <- m ;; k" := (Http.bind m (fun x => k))
  (at level 61, m at next level, right associativity) : py_scope.
Notation "m ;;; k" := (Http.bind m (fun _ => k))
  (at level 61, right associativity) : py_scope.

(** ** [c3media/client.py] *)

Module Client.
Import PyStr Utils Constants Http.
Local Open Scope py_scope.

(** [fuzzywuzzy.fuzz], the part of it that the client calls. *)
Record fuzz_module : Type := { ratio : string -> string -> Z }.

(** [opt or []]. *)
Definition or_empty {A : Type} (o : option (list A)) : list A :=
  match o with
  | Some l => l
  | None => []
  end.

(** Truth value of [event.get("recordings")]. *)
Definition truthy_recordings (o : option (list Recording.t)) : bool :=
  match o with
  | Some l => PyList.truthy l
  | None => false
  end.

Section Methods.
(** The remote side that the session talks to. *)
Variable net : network.
(** The result of [from fuzzywuzzy import fuzz]: [None] when the import
    raises [ImportError]. *)
Variable fuzzywuzzy : option fuzz_module.

(** The parameter [response_type] only serves the type checker of Python;
    the callers below read the payload at the type that they expect. *)
Definition _make_request (endpoint : string) : M payload :=
  let url := BASE_URL ++ "/" ++ endpoint in
  response <- session_get net url ;;
  raise_for_status response ;;;
  response_json response.

Definition get_conferences : M (list Conference.t) :=
  response <- _make_request "conferences" ;;
  match response with
  | JConferences conferences => ret conferences
  | _ => raise PayloadError
  end.

Definition get_conference_by_acronym (acronym : string)
  : M (option Conference.t) :=
  conferences <- get_conferences ;;
  ret (find (fun conference =>
               lower (Conference.acronym conference) =? lower acronym)
            conferences).

Definition get_conference (conference_id : string) : M Conference.t :=
  response <- _make_request ("conferences/" ++ conference_id) ;;
  match response with
  | JConference conference => ret conference
  | _ => raise PayloadError
  end.

Definition get_event (event_guid : string) : M Event.t :=
  response <- _make_request ("events/" ++ event_guid) ;;
  match response with
  | JEvent event => ret event
  | _ => raise PayloadError
  end.

Definition get_recording (recording_id : string) : M Recording.t :=
  response <- _make_request ("recordings/" ++ recording_id) ;;
  match response with
  | JRecording recording => ret recording
  | _ => raise PayloadError
  end.

Definition _get_conference_id (conference : Conference.t) : string :=
  Conference.acronym conference.

Definition get_conference_events (conference : Conference.t)
  : M (list Event.t) :=
  let conference_id := _get_conference_id conference in
  response <- _make_request ("conferences/" ++ conference_id) ;;
  match response with
  | JConference c => ret (Conference.events c)
  | _ => raise PayloadError
  end.

Definition get_conference_recordings_url (conference : Conference.t) : string :=
  Conference.recordings_url conference.

Definition get_conference_logo_url (conference : Conference.t) : string :=
  Conference.logo_url conference.

Definition get_conference_images_url (conference : Conference.t) : string :=
  Conference.images_url conference.

Definition get_event_by_guid (guid : string) : M (option Event.t) :=
  event <- get_event guid ;;
  ret (Some event).

Definition get_events_by_person (conference : Conference.t) (person : string)
  : M (list Event.t) :=
  events <- get_conference_events conference ;;
  ret (filter (fun event => existsb (String.eqb person) (Event.persons event))
              events).

Definition get_events_by_tag (conference : Conference.t) (tag : string)
  : M (list Event.t) :=
  events <- get_conference_events conference ;;
  ret (filter (fun event => existsb (String.eqb tag) (Event.tags event))
              events).

(** The parameter [threshold] has the default value 70: [None] stands
    for a call that leaves it out. *)
Definition get_events_by_fuzzy_title
    (conference : Conference.t) (search_title : string)
    (threshold : option Z) : M (list Event.t) :=
  let threshold := match threshold with Some t => t | None => 70%Z end in
  match fuzzywuzzy with
  | None =>
      raise (ImportError
        ("The fuzzywuzzy package is required for fuzzy title matching. "
         ++ "Please install it with: pip install fuzzywuzzy python-Levenshtein"))
  | Some fuzz =>
      events <- get_conference_events conference ;;
      ret (filter (fun event =>
                     (ratio fuzz (lower search_title)
                                 (lower (Event.title event))
                      >=? threshold)%Z)
                  events)
  end.

Definition get_event_recordings (event : Event.t) : M (list Recording.t) :=
  if truthy_recordings (Event.recordings event)
  then ret (or_empty (Event.recordings event))
  else
    full_event <- get_event (Event.guid event) ;;
    ret (or_empty (Event.recordings full_event)).

Definition get_event_recordings_by_language
    (event : Event.t) (language : string) : M (list Recording.t) :=
  recordings <- get_event_recordings event ;;
  ret (filter (fun recording => Recording.language recording =? language)
              recordings).

Definition get_event_recordings_by_format
    (event : Event.t) (mime_type : string) : M (list Recording.t) :=
  recordings <- get_event_recordings event ;;
  ret (filter (fun recording => Recording.mime_type recording =? mime_type)
              recordings).

(** The part of [get_event_best_recording] after the recordings have been
    obtained. *)
Definition best_of (recordings : list Recording.t) : option Recording.t :=
  if negb (PyList.truthy recordings) then None
  else hd_error (PyList.sorted_reverse Recording.size recordings).

Definition get_event_best_recording (event : Event.t) (mime_type : string)
  : M (option Recording.t) :=
  recordings <- get_event_recordings_by_format event mime_type ;;
  ret (best_of recordings).

(** The part of [get_event_audio_recording] after the recordings have
    been obtained. A [Recording] is a non-empty dict and so it is true:
    [opus_recording or audio_recordings[0]] is [opus_recording] unless it
    is [None]. *)
Definition audio_of (recordings : list Recording.t) : option Recording.t :=
  let audio_recordings :=
    filter (fun r => startswith (Recording.mime_type r) "audio/")
           recordings in
  match audio_recordings with
  | [] => None
  | first :: _ =>
      let opus_recording :=
        find (fun r => Recording.mime_type r =? "audio/opus")
             audio_recordings in
      match opus_recording with
      | Some r => Some r
      | None => Some first
      end
  end.

Definition get_event_audio_recording (event : Event.t) (language : string)
  : M (option Recording.t) :=
  recordings <- get_event_recordings_by_language event language ;;
  ret (audio_of recordings).

Definition get_recording_by_url (recording_url : string)
  : M (option Recording.t) :=
  match extract_recording_id recording_url with
  | None => ret None
  | Some recording_id =>
      if negb (truthy recording_id) then ret None
      else
        recording <- get_recording recording_id ;;
        ret (Some recording)
  end.

Definition get_event_recording_by_id
    (event : Event.t) (recording_id : string) : M (option Recording.t) :=
  recordings <- get_event_recordings event ;;
  ret (find (fun recording =>
               match extract_recording_id (Recording.url recording) with
               | Some i => i =? recording_id
               | None => false
               end)
            recordings).

Definition get_recording_subtitles (recording : Recording.t)
  : M (list Subtitle.t) :=
  if negb (truthy (Recording.recording_url recording)) then ret []
  else
    let base_url :=
      replace (Recording.recording_url recording)
              ("/" ++ Recording.folder recording ++ "/") "/" in
    let base_url := replace base_url "cdn.media.ccc.de" "static.media.ccc.de" in
    let base_url := replace base_url "/congress/" "/media/congress/" in
    let event_guid := split_last "/" (Recording.event_url recording) in
    for_each (keys COMMON_LANGUAGES)
      (fun lang subtitles =>
         for_each ["srt"; "vtt"]
           (fun ext subtitles =>
              let subtitle_url :=
                rsplit1_head "/" base_url
                ++ "/" ++ event_guid ++ "-" ++ lang ++ "." ++ ext in
              try_except_RequestException
                (response <- session_head net subtitle_url ;;
                 if (status_code response =? 200)%Z
                 then
                   let subtitle :=
                     {| Subtitle.language := lang;
                        Subtitle.url := subtitle_url;
                        Subtitle.content := None |} in
                   ret (subtitles ++ [subtitle])%list
                 else ret subtitles)
                (ret subtitles))
           subtitles)
      [].

Definition get_subtitle_content (subtitle : Subtitle.t)
  : M (option string) :=
  if negb (truthy (Subtitle.url subtitle)) then ret None
  else
    response <- session_get net (Subtitle.url subtitle) ;;
    raise_for_status response ;;;
    ret (Some (text response)).

End Methods.

End Client.

(** ** Vocabulary of the specification *)

Module Spec.
Import PyStr Constants Http.

(** A non-empty run of digits. *)
Definition digit_run (d : string) : Prop :=
  d <> "" /\ all_digits d = true.

(** [url] ends with [/recordings/<d>]. *)
Definition ends_with_recording (url d : string) : Prop :=
  exists p, url = p ++ "/recordings/" ++ d.

(** [url] ends with [/recordings/<d>] and one line feed. *)
Definition ends_with_recording_lf (url d : string) : Prop :=
  exists p, url = p ++ "/recordings/" ++ d ++ String LF "".

(** [a] occurs somewhere in [s]. *)
Definition mentions (s a : string) : Prop :=
  exists before after, s = before ++ a ++ after.

(** [x] is the first element of [l] that satisfies [P]. *)
Definition first_such {A : Type} (P : A -> Prop) (l : list A) (x : A) : Prop :=
  exists before after,
    l = (before ++ x :: after)%list /\ P x /\ Forall (fun y => ~ P y) before.

(** [x] has the largest key in [l], and is the first element of [l] with
    that key. *)
Definition first_largest {A : Type} (key : A -> Z) (l : list A) (x : A)
  : Prop :=
  exists before after,
    l = (before ++ x :: after)%list
    /\ Forall (fun y => (key y < key x)%Z) before
    /\ Forall (fun y => (key y <= key x)%Z) after.

(** [l1] is [l2] with some elements left out. *)
Inductive subseq {A : Type} : list A -> list A -> Prop :=
| subseq_nil : subseq [] []
| subseq_skip x l1 l2 : subseq l1 l2 -> subseq l1 (x :: l2)
| subseq_keep x l1 l2 : subseq l1 l2 -> subseq (x :: l1) (x :: l2).

(** Equality of two texts when case is ignored. *)
Definition same_ignoring_case (a b : string) : Prop := lower a = lower b.

(** The recordings among which [get_event_audio_recording] chooses. *)
Definition audio_candidates (language : string) (l : list Recording.t)
  : list Recording.t :=
  filter (fun r => (Recording.language r =? language)
                   && startswith (Recording.mime_type r) "audio/") l.

(** The subtitle files that may exist for a recording, in the order in
    which they are probed. *)
Definition subtitle_candidates : list (string * string) :=
  [ ("eng", "srt"); ("eng", "vtt");
    ("deu", "srt"); ("deu", "vtt");
    ("eng-deu", "srt"); ("eng-deu", "vtt") ].

(** The probe for a subtitle file was answered with status 200. *)
Definition found (a : answer) : Prop :=
  exists r, a = Delivered r /\ status_code r = 200%Z.

Definition answered_200 (a : answer) : bool :=
  match a with
  | Delivered r => (status_code r =? 200)%Z
  | Failed => false
  end.

(** The address at which [get_recording_subtitles] looks for the subtitle
    file of a language and an extension. *)
Definition subtitle_url (recording : Recording.t) (lang ext : string)
  : string :=
  let base_url :=
    replace (Recording.recording_url recording)
            ("/" ++ Recording.folder recording ++ "/") "/" in
  let base_url := replace base_url "cdn.media.ccc.de" "static.media.ccc.de" in
  let base_url := replace base_url "/congress/" "/media/congress/" in
  let event_guid := split_last "/" (Recording.event_url recording) in
  rsplit1_head "/" base_url ++ "/" ++ event_guid ++ "-" ++ lang ++ "." ++ ext.

(** The [Subtitle] that stands for the file of a language and an
    extension. *)
Definition subtitle_for (recording : Recording.t) (c : string * string)
  : Subtitle.t :=
  {| Subtitle.language := fst c;
     Subtitle.url := subtitle_url recording (fst c) (snd c);
     Subtitle.content := None |}.

(** The probe for the file of a language and an extension. *)
Definition probe_request (recording : Recording.t) (c : string * string)
  : request :=
  HEAD (subtitle_url recording (fst c) (snd c)).

(** The subtitles whose probes are answered with status 200, when the
    candidates are probed one after the other. *)
Fixpoint discovered (net : network) (recording : Recording.t)
    (log : list request) (candidates : list (string * string))
  : list Subtitle.t :=
  match candidates with
  | [] => []
  | c :: rest =>
      ((if answered_200 (net log (probe_request recording c))
        then [subtitle_for recording c] else [])
       ++ discovered net recording (log ++ [probe_request recording c]) rest)%list
  end.

(** One turn of the inner loop of [get_recording_subtitles], for the
    candidate [c]. *)
Definition probe (net : network) (recording : Recording.t)
    (c : string * string) (subtitles : list Subtitle.t) : M (list Subtitle.t) :=
  try_except_RequestException
    (bind (session_head net (subtitle_url recording (fst c) (snd c)))
          (fun response =>
             if (status_code response =? 200)%Z
             then ret (subtitles ++ [subtitle_for recording c])%list
             else ret subtitles))
    (ret subtitles).

(** [s] ends with [suffix]. *)
Definition ends_with (s suffix : string) : Prop :=
  exists p, s = p ++ suffix.

(** A status for which [raise_for_status] raises. *)
Definition error_status (status : Z) : Prop := (400 <= status < 600)%Z.

End Spec.

(** ** Concrete data *)

Module Examples.
Import Http.

Definition recording_at (recording_url : string) (size : Z)
    (mime_type language : string) : Recording.t :=
  {| Recording.size := size;
     Recording.length := 3600;
     Recording.mime_type := mime_type;
     Recording.language := language;
     Recording.filename := "38c3-1-eng.mp4";
     Recording.state := "new";
     Recording.folder := "h264-hd";
     Recording.high_quality := true;
     Recording.width := 1920;
     Recording.height := 1080;
     Recording.updated_at := "2024-12-30";
     Recording.recording_url := recording_url;
     Recording.url := "https://api.media.ccc.de/public/recordings/12345";
     Recording.event_url := "https://api.media.ccc.de/public/events/abc-1";
     Recording.conference_url :=
       "https://api.media.ccc.de/public/conferences/38c3" |}.

Definition recording_of : Z -> string -> string -> Recording.t :=
  recording_at "https://cdn.media.ccc.de/congress/2024/h264-hd/38c3-1-eng.mp4".

(** A recording whose asset has no address. *)
Definition unpublished : Recording.t := recording_at "" 0 "video/mp4" "eng".

Definition event_of (title : string) (recordings : option (list Recording.t))
  : Event.t :=
  {| Event.guid := "abc-1";
     Event.title := title;
     Event.persons := ["alice"];
     Event.tags := ["38c3"];
     Event.recordings := recordings |}.

Definition conference_of (acronym : string) (events : list Event.t)
  : Conference.t :=
  {| Conference.acronym := acronym;
     Conference.aspect_ratio := "16:9";
     Conference.updated_at := "2024-12-30";
     Conference.title := "Chaos Communication Congress";
     Conference.schedule_url := "";
     Conference.slug := "congress/2024";
     Conference.event_last_released_at := "2024-12-30";
     Conference.link := "";
     Conference.description := "";
     Conference.webgen_location := "congress/2024";
     Conference.logo_url := "";
     Conference.images_url := "";
     Conference.recordings_url := "";
     Conference.url := "https://api.media.ccc.de/public/conferences/38c3";
     Conference.events := events |}.

(** A server that answers every request with status 200 and the given
    JSON body. *)
Definition serving (p : payload) : network :=
  fun _ _ => Delivered {| status_code := 200; text := "{}"; json := Some p |}.

(** A server that answers every request with the given status and a body
    that is not JSON. *)
Definition answering (status : Z) : network :=
  fun _ _ => Delivered {| status_code := status; text := "1"; json := None |}.

(** A network on which every request fails. *)
Definition unreachable : network := fun _ _ => Failed.

(** A static server that has the English [srt] and the German [vtt]
    subtitles of the example recording, and that cannot be reached for the
    English [vtt] file. *)
Definition static_server : network :=
  fun _ rq =>
    match rq with
    | HEAD url =>
        if (url =? "https://static.media.ccc.de/media/congress/2024/abc-1-eng.srt")
           || (url =? "https://static.media.ccc.de/media/congress/2024/abc-1-deu.vtt")
        then Delivered {| status_code := 200; text := ""; json := None |}
        else if url =? "https://static.media.ccc.de/media/congress/2024/abc-1-eng.vtt"
        then Failed
        else Delivered {| status_code := 404; text := ""; json := None |}
    | GET _ => Delivered {| status_code := 404; text := ""; json := None |}
    end.

Definition mp4_small : Recording.t := recording_of 100 "video/mp4" "eng".
Definition mp4_large : Recording.t := recording_of 500 "video/mp4" "eng".
Definition mp4_medium : Recording.t := recording_of 300 "video/mp4" "deu".
Definition mp4_large_deu : Recording.t := recording_of 500 "video/mp4" "deu".
Definition webm : Recording.t := recording_of 900 "video/webm" "eng".
Definition mp3 : Recording.t := recording_of 40 "audio/mpeg" "eng".
Definition opus : Recording.t := recording_of 30 "audio/opus" "eng".

(** A score that tells equal titles from different ones. *)
Definition exact_fuzz : Client.fuzz_module :=
  {| Client.ratio := fun a b => if a =? b then 100%Z else 0%Z |}.

End Examples.

Module Talks.
Import Http.

(** An event of a conference listing, with its speakers and tags. *)
Definition talk (guid title : string) (persons tags : list string) : Event.t :=
  {| Event.guid := guid;
     Event.title := title;
     Event.persons := persons;
     Event.tags := tags;
     Event.recordings := None |}.

Definition keynote : Event.t :=
  talk "abc-1" "Opening" ["alice"; "bob"] ["38c3"; "ccc"].
Definition workshop : Event.t :=
  talk "abc-2" "Soldering" ["Alice"] ["38c3"; "hardware"].
Definition closing : Event.t :=
  talk "abc-3" "Closing" ["bob"] ["38c3"].

(** A server that knows one event without recordings. *)
Definition bare_event_server : network :=
  Examples.serving (JEvent (Examples.event_of "t" (Some []))).

End Talks.

(** * Properties *)

(** ** Strings *)

Module PyStrFacts.
Import PyStr.

Lemma append_assoc (a b c : string) : (a ++ b) ++ c = a ++ b ++ c.
Proof. induction a as [|x a IH]; simpl; [reflexivity | now rewrite IH]. Qed.

Lemma append_nil_r (a : string) : a ++ "" = a.
Proof. induction a as [|x a IH]; simpl; [reflexivity | now rewrite IH]. Qed.

Lemma strip_prefix_app (p r : string) : strip_prefix p (p ++ r) = Some r.
Proof.
  induction p as [|x p IH]; simpl; [reflexivity |].
  now rewrite Ascii.eqb_refl.
Qed.

Lemma strip_prefix_inv (p s r : string) :
  strip_prefix p s = Some r -> s = p ++ r.
Proof.
  revert s; induction p as [|x p IH]; intros s H; simpl in *.
  - now inversion H.
  - destruct s as [|y s]; [discriminate |].
    destruct (Ascii.eqb_spec x y) as [->|]; [| discriminate].
    now rewrite (IH _ H).
Qed.

(** A text without the separator has no last separator. *)
Lemma append_inv_head (a b c : string) : a ++ b = a ++ c -> b = c.
Proof.
  induction a as [|x a IH]; simpl; [trivial |].
  intros H. injection H as H. now apply IH.
Qed.

Lemma rpartition_app (sep : ascii) (a b : string) :
  rpartition sep b = None ->
  rpartition sep (a ++ String sep b) = Some (a, b).
Proof.
  intros Hb; induction a as [|x a IH]; simpl.
  - now rewrite Hb, Ascii.eqb_refl.
  - now rewrite IH.
Qed.

End PyStrFacts.

(** ** [extract_recording_id] *)

Module UtilsFacts.
Import PyStr Utils Spec PyStrFacts.

Lemma at_dollar_inv (s : string) :
  at_dollar s = true -> s = "" \/ s = String LF "".
Proof.
  destruct s as [|c [|? ?]]; simpl; intros H; try discriminate.
  - now left.
  - right. apply Ascii.eqb_eq in H. now subst.
Qed.

Lemma digits_dollar_sound (s d : string) :
  digits_dollar s = Some d ->
  digit_run d /\ (s = d \/ s = d ++ String LF "").
Proof.
  revert d; induction s as [|c s IH]; intros d H; simpl in H; [discriminate |].
  destruct (is_digit c) eqn:Hc; [| discriminate].
  destruct (digits_dollar s) as [d0|] eqn:Hs.
  - inversion H; subst d; clear H.
    destruct (IH _ eq_refl) as [[_ Hd0] Hsd].
    split.
    + split; [discriminate | simpl; now rewrite Hc, Hd0].
    + destruct Hsd as [->| ->]; [now left | now right].
  - destruct (at_dollar s) eqn:Hdl; [| discriminate].
    inversion H; subst d; clear H.
    split.
    + split; [discriminate | simpl; now rewrite Hc].
    + destruct (at_dollar_inv _ Hdl) as [->| ->]; [now left | now right].
Qed.

Lemma digits_dollar_complete (d t : string) :
  digit_run d -> t = "" \/ t = String LF "" ->
  digits_dollar (d ++ t) = Some d.
Proof.
  intros [Hne Hd] Ht; induction d as [|c d IH]; [now elim Hne |].
  simpl in Hd; apply andb_prop in Hd as [Hc Hd].
  simpl; rewrite Hc.
  destruct d as [|c' d].
  - simpl. destruct Ht as [->| ->]; reflexivity.
  - rewrite IH; [reflexivity | discriminate | exact Hd].
Qed.

(** The digits that [(\d+)$] captures are determined by the text. *)
Lemma digit_run_unique (d d' t t' : string) :
  digit_run d -> digit_run d' ->
  t = "" \/ t = String LF "" -> t' = "" \/ t' = String LF "" ->
  d ++ t = d' ++ t' -> d = d'.
Proof.
  intros Hd Hd' Ht Ht' E.
  pose proof (digits_dollar_complete d t Hd Ht) as H1.
  pose proof (digits_dollar_complete d' t' Hd' Ht') as H2.
  rewrite E in H1. congruence.
Qed.

Lemma digits_no_slash (d t : string) :
  all_digits d = true -> t = "" \/ t = String LF "" ->
  rpartition slash (d ++ t) = None.
Proof.
  intros Hd Ht; induction d as [|c d IH]; simpl.
  - destruct Ht as [->| ->]; reflexivity.
  - simpl in Hd; apply andb_prop in Hd as [Hc Hd].
    rewrite (IH Hd).
    destruct (Ascii.eqb_spec c slash) as [->|]; [discriminate | reflexivity].
Qed.

Lemma match_here_iff (s d : string) :
  match_here s = Some d <->
  digit_run d /\ exists t, (t = "" \/ t = String LF "")
                           /\ s = "/recordings/" ++ d ++ t.
Proof.
  unfold match_here; split.
  - destruct (strip_prefix "/recordings/" s) as [rest|] eqn:Hp; [| discriminate].
    intros H. apply strip_prefix_inv in Hp.
    destruct (digits_dollar_sound _ _ H) as [Hd [E|E]]; split; trivial.
    + exists "". split; [now left |]. now rewrite append_nil_r, <- E.
    + exists (String LF ""). split; [now right |]. now rewrite <- E.
  - intros [Hd (t & Ht & ->)].
    rewrite strip_prefix_app. now apply digits_dollar_complete.
Qed.

Lemma re_search_eq (s : string) :
  re_search s =
  match match_here s with
  | Some d => Some d
  | None => match s with
            | EmptyString => None
            | String _ s' => re_search s'
            end
  end.
Proof. destruct s; reflexivity. Qed.

Lemma re_search_sound (s d : string) :
  re_search s = Some d -> exists p x, s = p ++ x /\ match_here x = Some d.
Proof.
  induction s as [|c s IH]; rewrite re_search_eq.
  - discriminate.
  - destruct (match_here (String c s)) as [d'|] eqn:Hm.
    + intros H; inversion H; subst d'. now exists "", (String c s).
    + intros H. destruct (IH H) as (p & x & -> & Hx).
      now exists (String c p), x.
Qed.

(** Two positions at which the pattern matches capture the same digits:
    what follows the last [/] of the text is the same for both. *)
Lemma match_here_unique (p x d d' : string) :
  match_here x = Some d -> match_here (p ++ x) = Some d' -> d' = d.
Proof.
  intros Hx Hpx.
  apply match_here_iff in Hx as [Hd (t & Ht & Ex)].
  apply match_here_iff in Hpx as [Hd' (t' & Ht' & Epx)].
  assert (L : rpartition slash (p ++ x) = Some (p ++ "/recordings", d ++ t)).
  { rewrite Ex.
    change ("/recordings/" ++ d ++ t) with ("/recordings" ++ String slash (d ++ t)).
    rewrite <- append_assoc. apply rpartition_app.
    apply digits_no_slash; [apply Hd | exact Ht]. }
  assert (R : rpartition slash (p ++ x) = Some ("/recordings", d' ++ t')).
  { rewrite Epx.
    change ("/recordings/" ++ d' ++ t') with ("/recordings" ++ String slash (d' ++ t')).
    apply rpartition_app.
    apply digits_no_slash; [apply Hd' | exact Ht']. }
  rewrite L in R. injection R as _ E.
  symmetry. now apply (digit_run_unique d d' t t').
Qed.

Lemma re_search_complete (p x d : string) :
  match_here x = Some d -> re_search (p ++ x) = Some d.
Proof.
  intros Hx; induction p as [|c p IH].
  - simpl. now rewrite re_search_eq, Hx.
  - change (String c p ++ x) with (String c (p ++ x)).
    rewrite re_search_eq.
    destruct (match_here (String c (p ++ x))) as [d'|] eqn:Hm.
    + f_equal. apply (match_here_unique (String c p) x); assumption.
    + exact IH.
Qed.

End UtilsFacts.

Module ExtractRecordingId.
Import PyStr Utils Spec PyStrFacts UtilsFacts.

Lemma Some_iff (url d : string) :
  extract_recording_id url = Some d <->
  digit_run d /\ (ends_with_recording url d \/ ends_with_recording_lf url d).
Proof.
  unfold extract_recording_id; split.
  - intros H. destruct (re_search_sound _ _ H) as (p & x & -> & Hx).
    apply match_here_iff in Hx as [Hd (t & [->| ->] & ->)]; split; trivial.
    + left. exists p. now rewrite append_nil_r.
    + right. now exists p.
  - intros [Hd [[p ->]|[p ->]]]; apply re_search_complete, match_here_iff;
      (split; [exact Hd |]).
    + exists "". split; [now left | now rewrite append_nil_r].
    + exists (String LF ""). split; [now right | reflexivity].
Qed.

(** C2, as amended. For every string [url], [extract_recording_id] returns
    the digit run [d] exactly when [url] ends with [/recordings/<d>],
    or with [/recordings/<d>] followed by one final line feed; on every
    other input it returns [None]. It is a total function. *)
Theorem extract_recording_id_spec (url : string) :
  (forall d, extract_recording_id url = Some d <->
             digit_run d /\
             (ends_with_recording url d \/ ends_with_recording_lf url d))
  /\ (extract_recording_id url = None <->
      forall d, digit_run d ->
                ~ ends_with_recording url d /\ ~ ends_with_recording_lf url d).
Proof.
  split; [intros d; apply Some_iff |].
  split.
  - intros Hn d Hd; split; intros H;
      assert (E : extract_recording_id url = Some d)
        by (apply Some_iff; split; [exact Hd | tauto]);
      congruence.
  - intros Hn. destruct (extract_recording_id url) as [d|] eqn:E; [| reflexivity].
    apply Some_iff in E as [Hd H]. destruct (Hn d Hd). tauto.
Qed.

(** The identifier of the recording URL of the specification. *)
Lemma extract_recording_id_spec_witness :
  extract_recording_id "https://api.media.ccc.de/public/recordings/12345"
  = Some "12345".
Proof.
  apply (proj1 (extract_recording_id_spec _)).
  split; [split; [discriminate | reflexivity] |].
  left. now exists "https://api.media.ccc.de/public".
Defined.

(** C2 as it is written fails: the text below does not end with
    [/recordings/<digits>], for no digit run at all, and yet an identifier
    is returned. *)
Lemma extract_recording_id_trailing_newline :
  let url := "https://api.media.ccc.de/public/recordings/12345" ++ String LF "" in
  extract_recording_id url = Some "12345"
  /\ forall d, digit_run d -> ~ ends_with_recording url d.
Proof.
  intros url; split; [reflexivity |].
  intros d [_ Hd] [p E].
  assert (L : rpartition slash url = Some (p ++ "/recordings", d)).
  { rewrite E.
    change ("/recordings/" ++ d) with ("/recordings" ++ String slash d).
    rewrite <- append_assoc. apply rpartition_app.
    rewrite <- (append_nil_r d). apply digits_no_slash; [exact Hd | now left]. }
  vm_compute in L. injection L as _ <-. discriminate Hd.
Qed.

End ExtractRecordingId.

(** ** The session *)

Module HttpFacts.
Import PyStr Constants Http Client.
Local Open Scope py_scope.

(** Every call of [_make_request] issues one [GET], whatever comes of it. *)
Lemma make_request_log (net : network) (endpoint : string) (log : list request) :
  fst (_make_request net endpoint log)
  = (log ++ [GET (BASE_URL ++ "/" ++ endpoint)])%list.
Proof.
  unfold _make_request, bind, session_get, send, raise_for_status, response_json.
  destruct (net log _) as [|r]; [reflexivity |]. cbn.
  destruct ((400 <=? status_code r)%Z && (status_code r <? 600)%Z); cbn;
    [reflexivity |].
  now destruct (json r).
Qed.

Lemma get_event_log (net : network) (guid : string) (log : list request) :
  fst (get_event net guid log)
  = (log ++ [GET (BASE_URL ++ "/events/" ++ guid)])%list.
Proof.
  unfold get_event, bind.
  pose proof (make_request_log net ("events/" ++ guid) log) as H.
  destruct (_make_request net ("events/" ++ guid) log) as [log' [p|e]];
    simpl in H; subst log'; [| reflexivity].
  now destruct p.
Qed.

End HttpFacts.

(** ** [get_event_recordings] *)

Module Hydration.
Import PyStr Constants Http Client Spec HttpFacts Examples.

(** C1. [get_event_recordings] returns the embedded recordings of the event
    when they are present and non-empty, and issues no request then. When
    they are absent or empty it issues exactly one request, the
    [get_event] fetch of the guid of the event, and returns the recordings
    of the fetched event, or the empty list when that event has none; a
    failure of the fetch is the failure of the call. *)
Theorem get_event_recordings_spec
    (net : network) (event : Event.t) (log : list request) :
  (forall recordings,
      Event.recordings event = Some recordings -> recordings <> [] ->
      get_event_recordings net event log = (log, Ok recordings))
  /\ (Event.recordings event = None \/ Event.recordings event = Some [] ->
      forall log' outcome,
        get_event net (Event.guid event) log = (log', outcome) ->
        log' = (log ++ [GET (BASE_URL ++ "/events/" ++ Event.guid event)])%list
        /\ match outcome with
           | Ok full_event =>
               get_event_recordings net event log =
               (log', Ok match Event.recordings full_event with
                          | Some recordings => recordings
                          | None => []
                          end)
           | Raise e => get_event_recordings net event log = (log', Raise e)
           end).
Proof.
  unfold get_event_recordings; split.
  - intros rs -> Hne. destruct rs; [now elim Hne | reflexivity].
  - intros Habsent log' outcome Hfetch.
    split.
    + now rewrite <- (get_event_log net (Event.guid event) log), Hfetch.
    + assert (Hf : truthy_recordings (Event.recordings event) = false)
        by (destruct Habsent as [-> | ->]; reflexivity).
      rewrite Hf. unfold bind. rewrite Hfetch.
      destruct outcome; reflexivity.
Qed.

(** An event of a list view, without recordings, is completed by one
    fetch; an event that carries its recordings is not fetched again. *)
Lemma get_event_recordings_spec_witness :
  get_event_recordings (serving (JEvent (event_of "t" (Some [mp3]))))
                       (event_of "t" None) []
  = ([GET "https://api.media.ccc.de/public/events/abc-1"], Ok [mp3])
  /\ get_event_recordings unreachable (event_of "t" (Some [opus])) []
     = ([], Ok [opus]).
Proof.
  split.
  - pose proof (proj2 (get_event_recordings_spec
                         (serving (JEvent (event_of "t" (Some [mp3]))))
                         (event_of "t" None) [])
                      (or_introl eq_refl) _ _ eq_refl) as [_ H].
    exact H.
  - apply (proj1 (get_event_recordings_spec unreachable
                    (event_of "t" (Some [opus])) [])).
    + reflexivity.
    + discriminate.
Defined.

End Hydration.

(** ** Sorting *)

Module PyListFacts.
Import PyList Spec.
Local Open Scope list_scope.

Section Sorting.
Context {A : Type} (key : A -> Z).

(** The last element of [l], as [sorted_reverse] reads it. *)
Lemma hd_error_rev_cons (y : A) (l : list A) :
  hd_error (rev (y :: l))
  = match hd_error (rev l) with
    | Some z => Some z
    | None => Some y
    end.
Proof. simpl. now destruct (rev l). Qed.

Lemma hd_error_rev_nil (l : list A) : hd_error (rev l) = None -> l = [].
Proof.
  destruct l as [|y l]; [reflexivity |].
  rewrite hd_error_rev_cons. now destruct (hd_error (rev l)).
Qed.

Lemma insert_sorted_Forall (P : A -> Prop) (x : A) (l : list A) :
  Forall P (insert_sorted key x l) <-> P x /\ Forall P l.
Proof.
  induction l as [|y l IH]; simpl.
  - split; [intros H; inversion H; now split | intros [H _]; now constructor].
  - destruct (key x <=? key y)%Z.
    + split; [intros H; inversion H; now split | intros [? ?]; now constructor].
    + split.
      * intros H; inversion H as [|? ? Hy Hl]; subst.
        apply IH in Hl as [? ?]. split; [assumption | now constructor].
      * intros [Hx H]; inversion H; subst. constructor; [assumption |].
        apply IH. now split.
Qed.

Lemma sort_stable_Forall (P : A -> Prop) (l : list A) :
  Forall P (sort_stable key l) <-> Forall P l.
Proof.
  induction l as [|x l IH]; simpl; [reflexivity |].
  rewrite insert_sorted_Forall, IH.
  split; [intros [? ?]; now constructor | intros H; inversion H; now split].
Qed.

(** Inserting [x] changes the last element only when [x] is larger than
    everything that is there. *)
Lemma insert_sorted_last (x : A) (l : list A) :
  hd_error (rev (insert_sorted key x l))
  = if forallb (fun y => (key y <? key x)%Z) l then Some x
    else hd_error (rev l).
Proof.
  induction l as [|y l IH]; [reflexivity |].
  cbn [insert_sorted forallb].
  destruct (key x <=? key y)%Z eqn:Hxy.
  - assert (Hlt : (key y <? key x)%Z = false) by lia.
    rewrite Hlt. cbn [andb].
    rewrite (hd_error_rev_cons x (y :: l)).
    destruct (hd_error (rev (y :: l))) eqn:E; [reflexivity |].
    now apply hd_error_rev_nil in E.
  - assert (Hlt : (key y <? key x)%Z = true) by lia.
    rewrite Hlt. cbn [andb].
    rewrite !hd_error_rev_cons, IH.
    destruct (forallb (fun y0 => (key y0 <? key x)%Z) l) eqn:Hall;
      [reflexivity |].
    destruct (hd_error (rev l)) eqn:E; [reflexivity |].
    apply hd_error_rev_nil in E. now subst l.
Qed.

Lemma forallb_sort_stable (f : A -> bool) (l : list A) :
  forallb f (sort_stable key l) = forallb f l.
Proof.
  apply eq_true_iff_eq. rewrite !forallb_forall, <- !Forall_forall.
  apply sort_stable_Forall.
Qed.

(** The last element of the ascending stable sort of a non-empty list has
    the largest key, and among the elements with that key it is the last
    one of the list. *)
Lemma sort_stable_last (l : list A) :
  l <> [] ->
  exists x before after,
    hd_error (rev (sort_stable key l)) = Some x
    /\ l = before ++ x :: after
    /\ Forall (fun y => (key y <= key x)%Z) before
    /\ Forall (fun y => (key y < key x)%Z) after.
Proof.
  induction l as [|x l IH]; [now intros H; elim H |]. intros _.
  cbn [sort_stable fold_right]. fold (sort_stable key l).
  rewrite insert_sorted_last, forallb_sort_stable.
  destruct (forallb (fun y => (key y <? key x)%Z) l) eqn:Hall.
  - exists x, [], l. repeat split; [constructor |].
    apply Forall_forall. intros y Hy.
    rewrite forallb_forall in Hall. specialize (Hall y Hy). lia.
  - destruct l as [|y l']; [discriminate |].
    destruct IH as (m & before & after & Hm & El & Hb & Ha); [discriminate |].
    exists m, (x :: before), after. rewrite Hm, El.
    repeat split; [| exact Ha].
    constructor; [| exact Hb].
    destruct (Z.le_gt_cases (key x) (key m)) as [|Hgt]; [assumption |].
    exfalso. apply Bool.not_true_iff_false in Hall. apply Hall.
    apply forallb_forall. intros z Hz. rewrite El in Hz.
    apply in_app_or in Hz as [Hz|[<-|Hz]].
    + rewrite Forall_forall in Hb. specialize (Hb z Hz). lia.
    + lia.
    + rewrite Forall_forall in Ha. specialize (Ha z Hz). lia.
Qed.

(** The first element of [sorted(l, key=key, reverse=True)]. *)
Lemma sorted_reverse_first (l : list A) :
  l <> [] ->
  exists x, hd_error (sorted_reverse key l) = Some x
            /\ first_largest key l x.
Proof.
  intros Hne. unfold sorted_reverse.
  destruct (sort_stable_last (rev l)) as (x & before & after & Hx & El & Hb & Ha).
  { intros E. apply Hne. now rewrite <- (rev_involutive l), E. }
  exists x. split; [exact Hx |].
  exists (rev after), (rev before). repeat split.
  - rewrite <- (rev_involutive l), El, rev_app_distr. simpl.
    now rewrite <- app_assoc.
  - now apply Forall_rev.
  - now apply Forall_rev.
Qed.

End Sorting.

Lemma subseq_nil_l {A : Type} (l : list A) : subseq [] l.
Proof. induction l; now constructor. Qed.

Lemma subseq_length {A : Type} (l1 l2 : list A) :
  subseq l1 l2 -> (List.length l1 <= List.length l2)%nat.
Proof. induction 1; simpl; lia. Qed.

Lemma filter_filter {A : Type} (f g : A -> bool) (l : list A) :
  filter f (filter g l) = filter (fun x => g x && f x) l.
Proof.
  induction l as [|x l IH]; simpl; [reflexivity |].
  destruct (g x); simpl; [destruct (f x) |]; now rewrite IH.
Qed.

(** [find] returns the first element that passes the test. *)
Lemma find_first_such {A : Type} (f : A -> bool) (P : A -> Prop) (l : list A) :
  (forall x, f x = true <-> P x) ->
  match find f l with
  | Some x => first_such P l x
  | None => Forall (fun y => ~ P y) l
  end.
Proof.
  intros Hf; induction l as [|y l IH]; simpl; [constructor |].
  destruct (f y) eqn:Hy.
  - exists [], l. repeat split; [now apply Hf | constructor].
  - assert (Hny : ~ P y) by (rewrite <- Hf, Hy; discriminate).
    destruct (find f l) as [x|].
    + destruct IH as (before & after & -> & Hx & Hb).
      exists (y :: before), after. repeat split; [exact Hx | now constructor].
    + now constructor.
Qed.

End PyListFacts.

(** ** [get_event_best_recording] and [get_event_audio_recording] *)

Module Selection.
Import PyStr PyList Constants Http Client Spec PyListFacts Examples.
Local Open Scope list_scope.

Lemma best_of_spec (recordings : list Recording.t) :
  (recordings = [] /\ best_of recordings = None)
  \/ (exists r, best_of recordings = Some r
                /\ first_largest Recording.size recordings r).
Proof.
  unfold best_of. destruct recordings as [|r0 l]; [now left | right].
  cbn [PyList.truthy negb].
  apply sorted_reverse_first. discriminate.
Qed.

(** C3. For every event and mime type, once the recordings of the event
    have been obtained, [get_event_best_recording] returns, among the
    recordings whose [mime_type] is the requested one, the one of largest
    [size], and of several of that size the one that comes first in the
    list; it returns [None] when no recording has the mime type. *)
Theorem get_event_best_recording_spec
    (net : network) (event : Event.t) (mime_type : string)
    (log log' : list request) (recordings : list Recording.t) :
  get_event_recordings net event log = (log', Ok recordings) ->
  let matching :=
    filter (fun r => Recording.mime_type r =? mime_type) recordings in
  exists best,
    get_event_best_recording net event mime_type log = (log', Ok best)
    /\ ((matching = [] /\ best = None)
        \/ (exists r, best = Some r
                      /\ first_largest Recording.size matching r)).
Proof.
  intros Hrec matching.
  exists (best_of matching). split.
  - unfold get_event_best_recording, get_event_recordings_by_format, bind.
    now rewrite Hrec.
  - destruct (best_of_spec matching) as [[? ?]|(r & ? & ?)];
      [left; now split | right; now exists r].
Qed.

(** Sizes 100, 500, 300 and 500 again: the first recording of size 500 is
    the best one; the larger recording of another format does not count. *)
Lemma get_event_best_recording_spec_witness :
  exists best,
    get_event_best_recording unreachable
      (event_of "t" (Some [webm; mp4_small; mp4_large; mp4_medium; mp4_large_deu]))
      "video/mp4" []
    = ([], Ok best)
    /\ (([mp4_small; mp4_large; mp4_medium; mp4_large_deu] = [] /\ best = None)
        \/ (exists r, best = Some r
              /\ first_largest Recording.size
                   [mp4_small; mp4_large; mp4_medium; mp4_large_deu] r)).
Proof.
  apply (get_event_best_recording_spec unreachable
           (event_of "t" (Some [webm; mp4_small; mp4_large; mp4_medium; mp4_large_deu]))
           "video/mp4" [] []
           [webm; mp4_small; mp4_large; mp4_medium; mp4_large_deu]).
  reflexivity.
Defined.

Example best_recording_500 :
  get_event_best_recording unreachable
    (event_of "t" (Some [webm; mp4_small; mp4_large; mp4_medium; mp4_large_deu]))
    "video/mp4" []
  = ([], Ok (Some mp4_large)).
Proof. reflexivity. Qed.

Example best_recording_none :
  get_event_best_recording unreachable
    (event_of "t" (Some [webm])) "video/mp4" []
  = ([], Ok None).
Proof. reflexivity. Qed.

Lemma audio_of_spec (audio : list Recording.t) :
  Forall (fun r => startswith (Recording.mime_type r) "audio/" = true) audio ->
  let is_opus r := Recording.mime_type r = "audio/opus" in
  (audio = [] /\ audio_of audio = None)
  \/ (exists r, audio_of audio = Some r /\ first_such is_opus audio r)
  \/ (Forall (fun r => ~ is_opus r) audio
      /\ exists r rest, audio = r :: rest /\ audio_of audio = Some r).
Proof.
  intros Haudio is_opus. unfold audio_of.
  assert (E : filter (fun r => startswith (Recording.mime_type r) "audio/") audio
              = audio).
  { clear is_opus. induction Haudio as [|r l Hr _ IH]; simpl; [reflexivity |].
    now rewrite Hr, IH. }
  rewrite E. destruct audio as [|r0 rest]; [now left | right].
  pose proof (find_first_such
                (fun r => Recording.mime_type r =? "audio/opus") is_opus
                (r0 :: rest)
                (fun r => String.eqb_eq (Recording.mime_type r) "audio/opus"))
    as H.
  destruct (find _ (r0 :: rest)) as [r|].
  - left. now exists r.
  - right. split; [exact H | now exists r0, rest].
Qed.

Lemma audio_candidates_audio (language : string) (l : list Recording.t) :
  Forall (fun r => startswith (Recording.mime_type r) "audio/" = true)
         (audio_candidates language l).
Proof.
  apply Forall_forall. intros r Hr. unfold audio_candidates in Hr.
  apply filter_In in Hr as [_ Hr]. now apply andb_prop in Hr as [_ ?].
Qed.

Lemma audio_of_candidates (language : string) (l : list Recording.t) :
  audio_of (filter (fun r => Recording.language r =? language) l)
  = audio_of (audio_candidates language l).
Proof.
  unfold audio_of at 1. rewrite filter_filter.
  fold (audio_candidates language l).
  pose proof (audio_candidates_audio language l) as Ha.
  unfold audio_of.
  assert (E : filter (fun r => startswith (Recording.mime_type r) "audio/")
                     (audio_candidates language l)
              = audio_candidates language l).
  { induction Ha as [|r l' Hr _ IH]; simpl; [reflexivity |].
    now rewrite Hr, IH. }
  now rewrite E.
Qed.

(** C4. For every event and language code, once the recordings of the
    event have been obtained, [get_event_audio_recording] considers the
    recordings of that language whose [mime_type] starts with [audio/]. It
    returns [None] when there is none, the first one whose [mime_type] is
    exactly [audio/opus] when there is one, wherever it stands, and the
    first candidate otherwise. *)
Theorem get_event_audio_recording_spec
    (net : network) (event : Event.t) (language : string)
    (log log' : list request) (recordings : list Recording.t) :
  get_event_recordings net event log = (log', Ok recordings) ->
  let audio := audio_candidates language recordings in
  let is_opus r := Recording.mime_type r = "audio/opus" in
  exists chosen,
    get_event_audio_recording net event language log = (log', Ok chosen)
    /\ ((audio = [] /\ chosen = None)
        \/ (exists r, chosen = Some r /\ first_such is_opus audio r)
        \/ (Forall (fun r => ~ is_opus r) audio
            /\ exists r rest, audio = r :: rest /\ chosen = Some r)).
Proof.
  intros Hrec audio is_opus.
  exists (audio_of audio). split.
  - unfold get_event_audio_recording, get_event_recordings_by_language, bind.
    rewrite Hrec. cbn. unfold ret. now rewrite audio_of_candidates.
  - apply audio_of_spec, audio_candidates_audio.
Qed.

(** The candidates [audio/mpeg], [audio/opus] of the specification. *)
Lemma get_event_audio_recording_spec_witness :
  exists chosen,
    get_event_audio_recording unreachable
      (event_of "t" (Some [mp4_large; mp3; opus])) "eng" []
    = ([], Ok chosen)
    /\ (([mp3; opus] = [] /\ chosen = None)
        \/ (exists r, chosen = Some r
              /\ first_such (fun r => Recording.mime_type r = "audio/opus")
                            [mp3; opus] r)
        \/ (Forall (fun r => Recording.mime_type r <> "audio/opus") [mp3; opus]
            /\ exists r rest, [mp3; opus] = r :: rest /\ chosen = Some r)).
Proof.
  apply (get_event_audio_recording_spec unreachable
           (event_of "t" (Some [mp4_large; mp3; opus])) "eng" [] []
           [mp4_large; mp3; opus]).
  reflexivity.
Defined.

Example audio_recording_opus :
  get_event_audio_recording unreachable
    (event_of "t" (Some [mp4_large; mp3; opus])) "eng" []
  = ([], Ok (Some opus)).
Proof. reflexivity. Qed.

Example audio_recording_mpeg :
  get_event_audio_recording unreachable
    (event_of "t" (Some [mp4_large; mp3])) "eng" []
  = ([], Ok (Some mp3)).
Proof. reflexivity. Qed.

End Selection.

(** ** [get_subtitle_content] *)

Module SubtitleContent.
Import PyStr Constants Http Client Spec Examples.
Local Open Scope list_scope.

(** C5, as amended. [get_subtitle_content] returns [None], without any
    request, only for a subtitle whose [url] is empty. Otherwise it issues
    one [GET] of the [url]; a transport failure and a status from 400 to
    599 are raised to the caller as request failures, and the body of any
    other response is returned as text. *)
Theorem get_subtitle_content_spec
    (net : network) (subtitle : Subtitle.t) (log : list request) :
  let url := Subtitle.url subtitle in
  (url = "" -> get_subtitle_content net subtitle log = (log, Ok None))
  /\ (url <> "" ->
      exists outcome,
        get_subtitle_content net subtitle log = (log ++ [GET url], outcome)
        /\ match net log (GET url) with
           | Failed =>
               outcome = Raise ConnectionError
           | Delivered r =>
               (error_status (status_code r)
                /\ outcome = Raise (HTTPError (status_code r)))
               \/ (~ error_status (status_code r)
                   /\ outcome = Ok (Some (text r)))
           end).
Proof.
  intros url; unfold get_subtitle_content; fold url; split.
  - intros ->. reflexivity.
  - intros Hne. destruct url as [|c u] eqn:Eu; [now elim Hne |].
    cbn [truthy negb].
    unfold bind, session_get, send, raise_for_status, error_status.
    destruct (net log (GET (String c u))) as [|r].
    + now eexists.
    + destruct (400 <=? status_code r)%Z eqn:H1;
        destruct (status_code r <? 600)%Z eqn:H2; cbn;
        eexists; (split; [reflexivity |]);
        solve [left; split; [lia | reflexivity]
              | right; split; [lia | reflexivity]].
Qed.

(** A subtitle file that the server does not have. *)
Lemma get_subtitle_content_spec_witness :
  exists outcome,
    get_subtitle_content (answering 404)
      {| Subtitle.language := "eng";
         Subtitle.url := "https://static.media.ccc.de/abc-1-eng.srt";
         Subtitle.content := None |} []
    = ([GET "https://static.media.ccc.de/abc-1-eng.srt"], outcome)
    /\ ((error_status 404 /\ outcome = Raise (HTTPError 404))
        \/ (~ error_status 404 /\ outcome = Ok (Some "1"))).
Proof.
  apply (proj2 (get_subtitle_content_spec (answering 404)
                  {| Subtitle.language := "eng";
                     Subtitle.url := "https://static.media.ccc.de/abc-1-eng.srt";
                     Subtitle.content := None |} [])).
  discriminate.
Defined.

(** C5 as it is written fails: neither a status 404 nor a transport failure
    yields [None]; both are raised, and both are request failures. *)
Lemma get_subtitle_content_raises :
  let subtitle :=
    {| Subtitle.language := "eng";
       Subtitle.url := "https://static.media.ccc.de/abc-1-eng.srt";
       Subtitle.content := None |} in
  snd (get_subtitle_content (answering 404) subtitle []) = Raise (HTTPError 404)
  /\ snd (get_subtitle_content unreachable subtitle []) = Raise ConnectionError
  /\ snd (get_subtitle_content (answering 404) subtitle []) <> Ok None
  /\ snd (get_subtitle_content unreachable subtitle []) <> Ok None
  /\ is_RequestException (HTTPError 404) = true
  /\ is_RequestException ConnectionError = true.
Proof. cbv. repeat split; discriminate. Qed.

End SubtitleContent.

(** ** [get_recording_subtitles] *)

Module SubtitleProbing.
Import PyStr Constants Http Client Spec PyStrFacts PyListFacts Examples.
Local Open Scope list_scope.

Lemma answered_200_found (a : answer) : answered_200 a = true <-> found a.
Proof.
  unfold found; destruct a as [|r]; simpl; split.
  - discriminate.
  - intros (r & H & _); discriminate.
  - intros H. exists r. split; [reflexivity | lia].
  - intros (r' & H & H200). injection H as <-. lia.
Qed.

(** One probe: the request is issued, nothing is raised, and the subtitle
    is appended when the answer has status 200. *)
Lemma probe_run (net : network) (recording : Recording.t) (c : string * string)
    (subtitles : list Subtitle.t) (log : list request) :
  probe net recording c subtitles log
  = (log ++ [probe_request recording c],
     Ok (subtitles ++ if answered_200 (net log (probe_request recording c))
                      then [subtitle_for recording c] else [])).
Proof.
  unfold probe, try_except_RequestException, bind, session_head, send,
    probe_request, answered_200, subtitle_for.
  destruct (net log _) as [|r]; cbn.
  - now rewrite app_nil_r.
  - destruct (status_code r =? 200)%Z; cbn; [reflexivity |].
    now rewrite app_nil_r.
Qed.

Lemma for_each_app {A S : Type} (xs ys : list A) (body : A -> S -> M S)
    (acc : S) (log : list request) :
  for_each (xs ++ ys) body acc log
  = bind (for_each xs body acc) (for_each ys body) log.
Proof.
  revert acc log; induction xs as [|x xs IH]; intros acc log; [reflexivity |].
  cbn [app for_each]. unfold bind.
  destruct (body x acc log) as [log' [acc'|e]]; [| reflexivity].
  rewrite IH. reflexivity.
Qed.

Lemma for_each_map {A B S : Type} (f : A -> B) (xs : list A)
    (body : B -> S -> M S) (acc : S) (log : list request) :
  for_each (map f xs) body acc log
  = for_each xs (fun x => body (f x)) acc log.
Proof.
  revert acc log; induction xs as [|x xs IH]; intros acc log; [reflexivity |].
  cbn [map for_each]. unfold bind.
  destruct (body (f x) acc log) as [log' [acc'|e]]; [| reflexivity].
  apply IH.
Qed.

(** Two nested loops visit the pairs of the product, row by row. *)
Lemma for_each_nested {A B S : Type} (xs : list A) (ys : list B)
    (body : A -> B -> S -> M S) (acc : S) (log : list request) :
  for_each xs (fun x acc => for_each ys (fun y acc => body x y acc) acc) acc log
  = for_each (list_prod xs ys) (fun c acc => body (fst c) (snd c) acc) acc log.
Proof.
  revert acc log; induction xs as [|x xs IH]; intros acc log; [reflexivity |].
  cbn [list_prod for_each]. rewrite for_each_app.
  unfold bind. rewrite for_each_map. cbn [fst snd].
  destruct (for_each ys _ acc log) as [log' [acc'|e]]; [| reflexivity].
  apply IH.
Qed.

Lemma for_each_probe (net : network) (recording : Recording.t)
    (candidates : list (string * string)) (acc : list Subtitle.t)
    (log : list request) :
  for_each candidates
    (fun c subtitles => probe net recording c subtitles) acc log
  = (log ++ map (probe_request recording) candidates,
     Ok (acc ++ discovered net recording log candidates)).
Proof.
  revert acc log; induction candidates as [|c rest IH]; intros acc log.
  - cbn. now rewrite !app_nil_r.
  - cbn [for_each map discovered]. unfold bind. rewrite probe_run, IH.
    now rewrite <- !app_assoc.
Qed.

(** The whole scan, for a recording that has a [recording_url]. *)
Lemma get_recording_subtitles_run (net : network) (recording : Recording.t)
    (log : list request) :
  Recording.recording_url recording <> "" ->
  get_recording_subtitles net recording log
  = (log ++ map (probe_request recording) subtitle_candidates,
     Ok (discovered net recording log subtitle_candidates)).
Proof.
  intros Hne.
  assert (Ht : negb (truthy (Recording.recording_url recording)) = false)
    by (destruct (Recording.recording_url recording); [now elim Hne | reflexivity]).
  unfold get_recording_subtitles. rewrite Ht.
  transitivity
    (for_each (keys COMMON_LANGUAGES)
       (fun lang subtitles =>
          for_each ["srt"; "vtt"]
            (fun ext subtitles => probe net recording (lang, ext) subtitles)
            subtitles)
       [] log); [reflexivity |].
  rewrite (for_each_nested (keys COMMON_LANGUAGES) ["srt"; "vtt"]
             (fun lang ext => probe net recording (lang, ext))).
  change (list_prod (keys COMMON_LANGUAGES) ["srt"; "vtt"])
    with subtitle_candidates.
  apply (for_each_probe net recording subtitle_candidates []).
Qed.

Lemma no_url_no_probes
    (net : network) (recording : Recording.t) (log : list request) :
  Recording.recording_url recording = "" ->
  get_recording_subtitles net recording log = (log, Ok []).
Proof.
  intros H. unfold get_recording_subtitles. now rewrite H.
Qed.

Lemma subtitle_for_inj (recording : Recording.t) (c c' : string * string) :
  subtitle_for recording c = subtitle_for recording c' -> c = c'.
Proof.
  destruct c as [lang ext], c' as [lang' ext'].
  unfold subtitle_for, subtitle_url; cbn [fst snd].
  intros H. injection H as Hlang Hurl. subst lang'.
  apply append_inv_head in Hurl. injection Hurl as Hurl.
  apply append_inv_head in Hurl. injection Hurl as Hurl.
  apply append_inv_head in Hurl. injection Hurl as ->. reflexivity.
Qed.

Lemma discovered_inv (net : network) (recording : Recording.t)
    (candidates : list (string * string)) (log : list request)
    (s : Subtitle.t) :
  In s (discovered net recording log candidates) ->
  exists c, In c candidates /\ s = subtitle_for recording c.
Proof.
  revert log; induction candidates as [|c rest IH]; intros log; simpl;
    [now intros [] |].
  intros H. apply in_app_or in H as [H|H].
  - destruct (answered_200 _); [| now destruct H].
    destruct H as [<-|[]]. exists c. now split; [left |].
  - destruct (IH _ H) as (c' & Hc' & ->). exists c'. now split; [right |].
Qed.

Lemma discovered_subseq (net : network) (recording : Recording.t)
    (candidates : list (string * string)) (log : list request) :
  subseq (discovered net recording log candidates)
         (map (subtitle_for recording) candidates).
Proof.
  revert log; induction candidates as [|c rest IH]; intros log; simpl;
    [constructor |].
  destruct (answered_200 _); simpl; constructor; apply IH.
Qed.

(** A candidate is in the result exactly when its own probe, issued after
    the probes of the candidates in front of it, finds the file. *)
Lemma discovered_In (net : network) (recording : Recording.t)
    (candidates : list (string * string)) :
  NoDup candidates ->
  forall (log : list request) (i : nat) (c : string * string),
    nth_error candidates i = Some c ->
    (In (subtitle_for recording c) (discovered net recording log candidates)
     <-> found (net (log ++ firstn i (map (probe_request recording) candidates))
                    (probe_request recording c))).
Proof.
  induction 1 as [|c0 rest Hnotin Hnodup IH]; intros log i c Hi.
  - now destruct i.
  - rewrite <- answered_200_found. cbn [discovered map].
    destruct i as [|i]; cbn [nth_error firstn] in *.
    + injection Hi as <-. rewrite app_nil_r. split.
      * intros H. apply in_app_or in H as [H|H].
        -- destruct (answered_200 _); [reflexivity | now destruct H].
        -- apply discovered_inv in H as (c' & Hc' & E).
           apply subtitle_for_inj in E. now subst c'.
      * intros ->. apply in_or_app. left. now left.
    + assert (Hc : In c rest) by (eapply nth_error_In; eassumption).
      replace (log ++ probe_request recording c0
                     :: firstn i (map (probe_request recording) rest))
        with ((log ++ [probe_request recording c0])
              ++ firstn i (map (probe_request recording) rest))
        by (now rewrite <- app_assoc).
      rewrite answered_200_found, <- (IH _ _ _ Hi). split.
      * intros H. apply in_app_or in H as [H|H]; [| exact H].
        destruct (answered_200 _); [| now destruct H].
        destruct H as [E|[]]. apply subtitle_for_inj in E. now subst c0.
      * intros H. apply in_or_app. now right.
Qed.

(** C6. In [get_recording_subtitles], a transport failure of one probe
    does not end the scan: for a recording that has a [recording_url] the
    call returns normally after issuing the probes of all six candidates,
    and a candidate is in the result exactly when its own probe was
    answered with status 200, whatever happened to the other probes. *)
Theorem get_recording_subtitles_probing
    (net : network) (recording : Recording.t) (log : list request) :
  Recording.recording_url recording <> "" ->
  let requests := map (probe_request recording) subtitle_candidates in
  exists subtitles,
    get_recording_subtitles net recording log = (log ++ requests, Ok subtitles)
    /\ forall i c,
         nth_error subtitle_candidates i = Some c ->
         (In (subtitle_for recording c) subtitles
          <-> found (net (log ++ firstn i requests)
                         (probe_request recording c))).
Proof.
  intros Hne requests.
  exists (discovered net recording log subtitle_candidates). split.
  - now apply get_recording_subtitles_run.
  - apply discovered_In.
    repeat (constructor; [simpl; intuition discriminate |]). constructor.
Qed.

(** The English [vtt] probe fails on the network; the five other probes are
    issued all the same. *)
Lemma get_recording_subtitles_probing_witness :
  exists subtitles,
    get_recording_subtitles static_server mp4_large []
    = (map (probe_request mp4_large) subtitle_candidates, Ok subtitles)
    /\ forall i c,
         nth_error subtitle_candidates i = Some c ->
         (In (subtitle_for mp4_large c) subtitles
          <-> found (static_server
                       (firstn i (map (probe_request mp4_large)
                                      subtitle_candidates))
                       (probe_request mp4_large c))).
Proof.
  apply (get_recording_subtitles_probing static_server mp4_large []).
  discriminate.
Defined.

Example subtitles_of_static_server :
  get_recording_subtitles static_server mp4_large []
  = ([ HEAD "https://static.media.ccc.de/media/congress/2024/abc-1-eng.srt";
       HEAD "https://static.media.ccc.de/media/congress/2024/abc-1-eng.vtt";
       HEAD "https://static.media.ccc.de/media/congress/2024/abc-1-deu.srt";
       HEAD "https://static.media.ccc.de/media/congress/2024/abc-1-deu.vtt";
       HEAD "https://static.media.ccc.de/media/congress/2024/abc-1-eng-deu.srt";
       HEAD "https://static.media.ccc.de/media/congress/2024/abc-1-eng-deu.vtt" ],
     Ok [ subtitle_for mp4_large ("eng", "srt");
          subtitle_for mp4_large ("deu", "vtt") ]).
Proof. reflexivity. Qed.

Example subtitles_when_unreachable :
  snd (get_recording_subtitles unreachable mp4_large []) = Ok [].
Proof. reflexivity. Qed.

(** C7. For every recording whose [recording_url] is the empty string,
    [get_recording_subtitles] returns the empty list and issues no
    request. *)
Theorem get_recording_subtitles_empty_url
    (net : network) (recording : Recording.t) (log : list request) :
  Recording.recording_url recording = "" ->
  get_recording_subtitles net recording log = (log, Ok []).
Proof.
  intros Hempty. unfold get_recording_subtitles.
  rewrite Hempty. cbn [truthy negb]. reflexivity.
Qed.

Lemma get_recording_subtitles_empty_url_witness :
  get_recording_subtitles static_server unpublished [] = ([], Ok []).
Proof.
  apply (get_recording_subtitles_empty_url static_server unpublished []).
  reflexivity.
Defined.

Lemma subtitle_for_shape (recording : Recording.t) (c : string * string) :
  In c subtitle_candidates ->
  let s := subtitle_for recording c in
  Subtitle.content s = None
  /\ In (Subtitle.language s) (keys COMMON_LANGUAGES)
  /\ (ends_with (Subtitle.url s) ("-" ++ Subtitle.language s ++ ".srt")%string
      \/ ends_with (Subtitle.url s) ("-" ++ Subtitle.language s ++ ".vtt")%string).
Proof.
  intros Hc s. split; [reflexivity |].
  assert (Hurl : forall lang ext,
             ends_with (subtitle_url recording lang ext)
                       ("-" ++ lang ++ "." ++ ext)%string).
  { intros lang ext.
    unfold subtitle_url.
    set (dir := rsplit1_head "/" _). set (guid := split_last "/" _).
    exists (dir ++ "/" ++ guid)%string. now rewrite !append_assoc. }
  unfold s, subtitle_for; cbn [Subtitle.language Subtitle.url].
  simpl in Hc.
  repeat (destruct Hc as [<-|Hc];
          [cbn [fst snd]; split;
           [simpl; tauto | first [left; apply Hurl | right; apply Hurl]] |]).
  destruct Hc.
Qed.

(** C10. Every [Subtitle] that [get_recording_subtitles] returns has no
    [content], a [language] that is one of the three keys [eng], [deu],
    [eng-deu] of [COMMON_LANGUAGES], and a [url] that ends with
    [-<language>.srt] or [-<language>.vtt]. The result is the list of the
    six candidates, taken in the order of the keys and with [srt] in front
    of [vtt] for each key, with some of them left out; so it has at most
    six elements. *)
Theorem get_recording_subtitles_shape
    (net : network) (recording : Recording.t) (log : list request) :
  keys COMMON_LANGUAGES = ["eng"; "deu"; "eng-deu"]
  /\ subtitle_candidates = list_prod (keys COMMON_LANGUAGES) ["srt"; "vtt"]
  /\ exists subtitles,
       snd (get_recording_subtitles net recording log) = Ok subtitles
       /\ Forall (fun s =>
                    Subtitle.content s = None
                    /\ In (Subtitle.language s) (keys COMMON_LANGUAGES)
                    /\ (ends_with (Subtitle.url s)
                                  ("-" ++ Subtitle.language s ++ ".srt")%string
                        \/ ends_with (Subtitle.url s)
                                     ("-" ++ Subtitle.language s ++ ".vtt")%string))
                 subtitles
       /\ (List.length subtitles <= 6)%nat
       /\ subseq subtitles
                 (map (subtitle_for recording) subtitle_candidates).
Proof.
  split; [reflexivity |]. split; [reflexivity |].
  destruct (string_dec (Recording.recording_url recording) "") as [He|Hne].
  - exists []. rewrite (no_url_no_probes net recording log He).
    repeat split; [constructor | simpl; lia | apply subseq_nil_l].
  - exists (discovered net recording log subtitle_candidates).
    rewrite (get_recording_subtitles_run net recording log Hne).
    pose proof (discovered_subseq net recording subtitle_candidates log) as Hsub.
    repeat split.
    + apply Forall_forall. intros s Hs.
      apply discovered_inv in Hs as (c & Hc & ->).
      now apply subtitle_for_shape.
    + apply subseq_length in Hsub. now rewrite length_map in Hsub.
    + exact Hsub.
Qed.

End SubtitleProbing.

(** ** [get_events_by_fuzzy_title] *)

Module FuzzyTitle.
Import PyStr Constants Http Client Spec PyListFacts Examples.

(** C8. Without the [fuzzywuzzy] package, [get_events_by_fuzzy_title]
    raises, before any request, an [ImportError] whose message names the
    package; this is not a request failure. With the package it keeps, in
    their order, exactly the events of the conference whose title, with
    case ignored, scores at least the threshold against the search title;
    the threshold is 70 when the caller gives none. *)
Theorem get_events_by_fuzzy_title_spec
    (net : network) (conference : Conference.t) (search_title : string)
    (threshold : option Z) (log : list request) :
  let limit := match threshold with Some t => t | None => 70%Z end in
  (exists msg,
      get_events_by_fuzzy_title net None conference search_title threshold log
      = (log, Raise (ImportError msg))
      /\ mentions msg "fuzzywuzzy"
      /\ is_RequestException (ImportError msg) = false)
  /\ forall fuzz log' events,
       get_conference_events net conference log = (log', Ok events) ->
       let score e := ratio fuzz (lower search_title) (lower (Event.title e)) in
       exists kept,
         get_events_by_fuzzy_title net (Some fuzz) conference search_title
                                   threshold log
         = (log', Ok kept)
         /\ kept = filter (fun e => (limit <=? score e)%Z) events
         /\ forall e, In e kept <-> In e events /\ (limit <= score e)%Z.
Proof.
  intros limit; split.
  - eexists. split; [reflexivity |]. split; [| reflexivity].
    exists "The ", " package is required for fuzzy title matching. Please install it with: pip install fuzzywuzzy python-Levenshtein".
    reflexivity.
  - intros fuzz log' events Hev score.
    assert (Hf : filter (fun e => (score e >=? limit)%Z) events
                 = filter (fun e => (limit <=? score e)%Z) events).
    { apply filter_ext. intros e. apply Z.geb_leb. }
    exists (filter (fun e => (limit <=? score e)%Z) events). split.
    + unfold get_events_by_fuzzy_title, bind. fold limit. rewrite Hev.
      cbn. unfold ret. f_equal. f_equal. exact Hf.
    + split; [reflexivity |].
      intros e. rewrite filter_In. now rewrite Z.leb_le.
Qed.

(** The two titles of the specification, scored by equality of the
    lower-case texts. *)
Lemma get_events_by_fuzzy_title_spec_witness :
  let events := [event_of "Hello World" None; event_of "Completely Different" None] in
  let score e := ratio exact_fuzz (lower "hello world") (lower (Event.title e)) in
  exists kept,
    get_events_by_fuzzy_title
      (serving (JConference (conference_of "38c3" events)))
      (Some exact_fuzz) (conference_of "38c3" []) "hello world" None []
    = ([GET "https://api.media.ccc.de/public/conferences/38c3"], Ok kept)
    /\ kept = filter (fun e => (70 <=? score e)%Z) events
    /\ forall e, In e kept <-> In e events /\ (70 <= score e)%Z.
Proof.
  intros events score.
  apply (proj2 (get_events_by_fuzzy_title_spec
                  (serving (JConference (conference_of "38c3" events)))
                  (conference_of "38c3" []) "hello world" None [])
               exact_fuzz _ events).
  reflexivity.
Defined.

Example fuzzy_title_kept :
  snd (get_events_by_fuzzy_title
         (serving (JConference
                     (conference_of "38c3"
                        [event_of "Hello World" None;
                         event_of "Completely Different" None])))
         (Some exact_fuzz) (conference_of "38c3" []) "hello world" None [])
  = Ok [event_of "Hello World" None].
Proof. reflexivity. Qed.

End FuzzyTitle.

(** ** [get_conference_by_acronym] *)

Module ConferenceLookup.
Import PyStr Constants Http Client Spec PyListFacts Examples.

(** C9. For every acronym, once [get_conferences] has returned its list,
    [get_conference_by_acronym] returns the first conference of the list
    whose acronym is the given one when case is ignored, and [None] when
    the list has no such conference. *)
Theorem get_conference_by_acronym_spec
    (net : network) (acronym : string) (log log' : list request)
    (conferences : list Conference.t) :
  get_conferences net log = (log', Ok conferences) ->
  let matches c := same_ignoring_case (Conference.acronym c) acronym in
  exists result,
    get_conference_by_acronym net acronym log = (log', Ok result)
    /\ match result with
       | Some c => first_such matches conferences c
       | None => Forall (fun c => ~ matches c) conferences
       end.
Proof.
  intros Hget matches.
  exists (find (fun c => lower (Conference.acronym c) =? lower acronym)
               conferences).
  split.
  - unfold get_conference_by_acronym, bind. now rewrite Hget.
  - apply find_first_such. intros c. apply String.eqb_eq.
Qed.

(** The query [38C3] against the stored acronym [38c3]. *)
Lemma get_conference_by_acronym_spec_witness :
  let conferences := [conference_of "37c3" []; conference_of "38c3" []] in
  let matches c := same_ignoring_case (Conference.acronym c) "38C3" in
  exists result,
    get_conference_by_acronym (serving (JConferences conferences)) "38C3" []
    = ([GET "https://api.media.ccc.de/public/conferences"], Ok result)
    /\ match result with
       | Some c => first_such matches conferences c
       | None => Forall (fun c => ~ matches c) conferences
       end.
Proof.
  intros conferences matches.
  apply (get_conference_by_acronym_spec
           (serving (JConferences conferences)) "38C3" [] _ conferences).
  reflexivity.
Defined.

Example conference_38C3 :
  snd (get_conference_by_acronym
         (serving (JConferences
                     [conference_of "37c3" []; conference_of "38c3" []]))
         "38C3" [])
  = Ok (Some (conference_of "38c3" [])).
Proof. reflexivity. Qed.

Example acronym_ignores_case : same_ignoring_case "38C3" "38c3".
Proof. reflexivity. Qed.

End ConferenceLookup.

(** ** The primitive fetches *)

Module Fetching.
Import PyStr Constants Http Client Spec HttpFacts Examples Talks.
Local Open Scope list_scope.

Lemma error_status_iff (status : Z) :
  ((400 <=? status) && (status <? 600))%Z = true <-> error_status status.
Proof. unfold error_status. rewrite andb_true_iff. lia. Qed.

(** [_make_request] by cases, with the test of the status as a boolean. *)
Lemma make_request_eq (net : network) (endpoint : string) (log : list request) :
  _make_request net endpoint log
  = (log ++ [GET (BASE_URL ++ "/" ++ endpoint)%string],
     match net log (GET (BASE_URL ++ "/" ++ endpoint)%string) with
     | Failed => Raise ConnectionError
     | Delivered r =>
         if ((400 <=? status_code r) && (status_code r <? 600))%Z
         then Raise (HTTPError (status_code r))
         else match json r with
              | Some p => Ok p
              | None => Raise JSONDecodeError
              end
     end).
Proof.
  unfold _make_request, bind, session_get, send, raise_for_status, response_json.
  destruct (net log _) as [|r]; [reflexivity |]. cbn.
  destruct ((400 <=? status_code r)%Z && (status_code r <? 600)%Z); cbn;
    [reflexivity |].
  now destruct (json r).
Qed.

(** X1. [_make_request] issues exactly one [GET] of [BASE_URL/<endpoint>].
    A failure of the transport is raised; a status from 400 to 599 is raised
    as [HTTPError], whatever the body is; otherwise a body that is not JSON
    is raised as a decoding error and a JSON body is returned. *)
Theorem make_request_outcome
    (net : network) (endpoint : string) (log : list request) :
  let rq := GET (BASE_URL ++ "/" ++ endpoint)%string in
  exists outcome,
    _make_request net endpoint log = (log ++ [rq], outcome)
    /\ match net log rq with
       | Failed => outcome = Raise ConnectionError
       | Delivered r =>
           (error_status (status_code r)
            /\ outcome = Raise (HTTPError (status_code r)))
           \/ (~ error_status (status_code r) /\ json r = None
               /\ outcome = Raise JSONDecodeError)
           \/ (~ error_status (status_code r)
               /\ exists p, json r = Some p /\ outcome = Ok p)
       end.
Proof.
  intros rq. rewrite make_request_eq. fold rq.
  eexists. split; [reflexivity |].
  destruct (net log rq) as [|r]; [reflexivity |].
  destruct ((400 <=? status_code r) && (status_code r <? 600))%Z eqn:E.
  - left. split; [now apply error_status_iff | reflexivity].
  - assert (Hn : ~ error_status (status_code r))
      by (rewrite <- error_status_iff, E; discriminate).
    right. destruct (json r) as [p|].
    + right. split; [exact Hn |]. now exists p.
    + left. now repeat split.
Qed.

(** X2. Each primitive fetch issues exactly one request, whatever comes of
    it: the [GET] of its own endpoint. [get_conference_events] fetches the
    conference under its acronym. *)
Theorem primitive_fetch_requests (net : network) (log : list request) :
  fst (get_conferences net log) = log ++ [GET (BASE_URL ++ "/conferences")%string]
  /\ (forall id,
        fst (get_conference net id log)
        = log ++ [GET (BASE_URL ++ "/conferences/" ++ id)%string])
  /\ (forall guid,
        fst (get_event net guid log)
        = log ++ [GET (BASE_URL ++ "/events/" ++ guid)%string])
  /\ (forall id,
        fst (get_recording net id log)
        = log ++ [GET (BASE_URL ++ "/recordings/" ++ id)%string])
  /\ (forall conference,
        fst (get_conference_events net conference log)
        = log ++ [GET (BASE_URL ++ "/conferences/"
                       ++ Conference.acronym conference)%string]).
Proof.
  assert (H : forall (A : Type) endpoint (k : payload -> M A),
             (forall p l, fst (k p l) = l) ->
             fst (bind (_make_request net endpoint) k log)
             = log ++ [GET (BASE_URL ++ "/" ++ endpoint)%string]).
  { intros A endpoint k Hk. unfold bind. rewrite make_request_eq.
    destruct (net log _) as [|r]; [reflexivity |].
    destruct ((400 <=? status_code r) && (status_code r <? 600))%Z;
      [reflexivity |].
    destruct (json r); [apply Hk | reflexivity]. }
  repeat split; intros; apply H; intros p l; now destruct p.
Qed.

(** X3. [get_conference_events] does not read the events that its argument
    carries: it fetches the conference again under its acronym and returns
    the events of the fetched conference, so two conferences with the same
    acronym give the same result. *)
Theorem get_conference_events_refetches
    (net : network) (conference : Conference.t) (log : list request)
    (r : response) (fetched : Conference.t) :
  let rq := GET (BASE_URL ++ "/conferences/"
                 ++ Conference.acronym conference)%string in
  net log rq = Delivered r ->
  ~ error_status (status_code r) ->
  json r = Some (JConference fetched) ->
  get_conference_events net conference log
  = (log ++ [rq], Ok (Conference.events fetched))
  /\ forall other,
       Conference.acronym other = Conference.acronym conference ->
       get_conference_events net other log
       = get_conference_events net conference log.
Proof.
  intros rq Hnet Hok Hjson. split.
  - unfold get_conference_events, _get_conference_id, bind.
    rewrite make_request_eq.
    change (GET (BASE_URL ++ "/" ++ "conferences/"
                 ++ Conference.acronym conference)%string) with rq.
    rewrite Hnet.
    destruct ((400 <=? status_code r) && (status_code r <? 600))%Z eqn:E;
      [now apply error_status_iff in E |].
    now rewrite Hjson.
  - intros other Hsame.
    unfold get_conference_events, _get_conference_id. now rewrite Hsame.
Qed.

Lemma get_conference_events_refetches_witness :
  get_conference_events
    (serving (JConference (conference_of "38c3" [keynote; closing])))
    (conference_of "38c3" [workshop]) []
  = ([GET "https://api.media.ccc.de/public/conferences/38c3"],
     Ok [keynote; closing]).
Proof.
  refine (proj1 (get_conference_events_refetches
           (serving (JConference (conference_of "38c3" [keynote; closing])))
           (conference_of "38c3" [workshop]) []
           {| status_code := 200; text := "{}";
              json := Some (JConference (conference_of "38c3" [keynote; closing])) |}
           (conference_of "38c3" [keynote; closing]) _ _ _)).
  - reflexivity.
  - unfold error_status. simpl. lia.
  - reflexivity.
Defined.

(** X4. [get_event_by_guid] does not answer a missing event with [None]:
    a status from 400 to 599 is raised as [HTTPError], and a failure of the
    transport is raised as well. *)
Theorem get_event_by_guid_raises
    (net : network) (guid : string) (log : list request) :
  let rq := GET (BASE_URL ++ "/events/" ++ guid)%string in
  (net log rq = Failed ->
   get_event_by_guid net guid log = (log ++ [rq], Raise ConnectionError))
  /\ (forall r,
        net log rq = Delivered r -> error_status (status_code r) ->
        get_event_by_guid net guid log
        = (log ++ [rq], Raise (HTTPError (status_code r)))).
Proof.
  intros rq. unfold get_event_by_guid, get_event, bind.
  rewrite make_request_eq.
  change (GET (BASE_URL ++ "/" ++ "events/" ++ guid)%string) with rq. split.
  - intros ->. reflexivity.
  - intros r -> Herr. apply error_status_iff in Herr. now rewrite Herr.
Qed.

Lemma get_event_by_guid_raises_witness :
  get_event_by_guid (answering 404) "abc-1" []
  = ([GET "https://api.media.ccc.de/public/events/abc-1"], Raise (HTTPError 404))
  /\ get_event_by_guid unreachable "abc-1" []
     = ([GET "https://api.media.ccc.de/public/events/abc-1"],
        Raise ConnectionError).
Proof.
  split.
  - apply (proj2 (get_event_by_guid_raises (answering 404) "abc-1" [])
                 {| status_code := 404; text := "1"; json := None |}).
    + reflexivity.
    + unfold error_status. simpl. lia.
  - apply (proj1 (get_event_by_guid_raises unreachable "abc-1" [])).
    reflexivity.
Defined.

(** An event without recordings of its own costs one fetch. *)
Lemma hydration_log (net : network) (event : Event.t) (log : list request) :
  Event.recordings event = None \/ Event.recordings event = Some [] ->
  fst (get_event_recordings net event log)
  = log ++ [GET (BASE_URL ++ "/events/" ++ Event.guid event)%string].
Proof.
  intros Habsent. unfold get_event_recordings.
  assert (Hf : truthy_recordings (Event.recordings event) = false)
    by (destruct Habsent as [-> | ->]; reflexivity).
  rewrite Hf. unfold bind.
  pose proof (get_event_log net (Event.guid event) log) as H.
  destruct (get_event net (Event.guid event) log) as [log' [full|e]];
    simpl in *; now subst log'.
Qed.

(** X5. Nothing is cached: for an event without recordings of its own, a
    second call of [get_event_recordings] fetches the event again, also when
    the first call has just obtained its recordings. *)
Theorem get_event_recordings_no_cache
    (net : network) (event : Event.t) (log log' : list request)
    (recordings : list Recording.t) :
  Event.recordings event = None \/ Event.recordings event = Some [] ->
  get_event_recordings net event log = (log', Ok recordings) ->
  let rq := GET (BASE_URL ++ "/events/" ++ Event.guid event)%string in
  fst (get_event_recordings net event log') = log ++ [rq; rq].
Proof.
  intros Habsent Hfirst rq.
  pose proof (hydration_log net event log Habsent) as H1.
  rewrite Hfirst in H1. simpl in H1. subst log'.
  rewrite (hydration_log net event _ Habsent). fold rq.
  now rewrite <- app_assoc.
Qed.

Lemma get_event_recordings_no_cache_witness :
  fst (get_event_recordings (serving (JEvent (event_of "t" (Some [mp3]))))
         (event_of "t" None)
         [GET "https://api.media.ccc.de/public/events/abc-1"])
  = [GET "https://api.media.ccc.de/public/events/abc-1";
     GET "https://api.media.ccc.de/public/events/abc-1"].
Proof.
  apply (get_event_recordings_no_cache
           (serving (JEvent (event_of "t" (Some [mp3]))))
           (event_of "t" None) [] _ [mp3]).
  - now left.
  - reflexivity.
Defined.

End Fetching.

(** ** The filters over events and recordings *)

Module Filters.
Import PyStr PyList Constants Http Client Spec PyListFacts Selection Examples Talks.
Local Open Scope list_scope.

Lemma existsb_eqb_In (x : string) (l : list string) :
  existsb (String.eqb x) l = true <-> In x l.
Proof.
  rewrite existsb_exists. split.
  - intros (y & Hy & E). apply String.eqb_eq in E. now subst y.
  - intros H. exists x. split; [exact H | apply String.eqb_refl].
Qed.

Lemma filter_subseq {A : Type} (f : A -> bool) (l : list A) :
  subseq (filter f l) l.
Proof.
  induction l as [|x l IH]; simpl; [constructor |].
  destruct (f x); now constructor.
Qed.

(** A stricter test keeps a part of what a weaker test keeps. *)
Lemma filter_subseq_filter {A : Type} (f g : A -> bool) (l : list A) :
  (forall x, f x = true -> g x = true) ->
  subseq (filter f l) (filter g l).
Proof.
  intros Hfg; induction l as [|x l IH]; simpl; [constructor |].
  destruct (f x) eqn:Hf.
  - rewrite (Hfg x Hf). now constructor.
  - destruct (g x); [now constructor | exact IH].
Qed.

(** X6. [get_events_by_person] and [get_events_by_tag] keep, in their order,
    exactly the events of the conference whose [persons], respectively
    [tags], contain the given text as it is written; the comparison does not
    ignore case. *)
Theorem get_events_by_person_and_tag
    (net : network) (conference : Conference.t) (wanted : string)
    (log log' : list request) (events : list Event.t) :
  get_conference_events net conference log = (log', Ok events) ->
  (exists kept,
      get_events_by_person net conference wanted log = (log', Ok kept)
      /\ subseq kept events
      /\ forall e, In e kept <-> In e events /\ In wanted (Event.persons e))
  /\ (exists kept,
        get_events_by_tag net conference wanted log = (log', Ok kept)
        /\ subseq kept events
        /\ forall e, In e kept <-> In e events /\ In wanted (Event.tags e)).
Proof.
  intros Hev. split; eexists;
    (split; [unfold get_events_by_person, get_events_by_tag, bind;
             rewrite Hev; reflexivity |]);
    (split; [apply filter_subseq |]);
    intros e; now rewrite filter_In, existsb_eqb_In.
Qed.

(** The speaker [alice] of the keynote is not the speaker [Alice] of the
    workshop. *)
Lemma get_events_by_person_and_tag_witness :
  let net := serving (JConference (conference_of "38c3" [keynote; workshop; closing])) in
  let events := [keynote; workshop; closing] in
  (exists kept,
      get_events_by_person net (conference_of "38c3" []) "alice" []
      = ([GET "https://api.media.ccc.de/public/conferences/38c3"], Ok kept)
      /\ subseq kept events
      /\ forall e, In e kept <-> In e events /\ In "alice" (Event.persons e))
  /\ (exists kept,
        get_events_by_tag net (conference_of "38c3" []) "alice" []
        = ([GET "https://api.media.ccc.de/public/conferences/38c3"], Ok kept)
        /\ subseq kept events
        /\ forall e, In e kept <-> In e events /\ In "alice" (Event.tags e)).
Proof.
  intros net events.
  apply (get_events_by_person_and_tag net (conference_of "38c3" []) "alice"
           [] _ events).
  reflexivity.
Defined.

Example events_of_alice :
  snd (get_events_by_person
         (serving (JConference (conference_of "38c3" [keynote; workshop; closing])))
         (conference_of "38c3" []) "alice" [])
  = Ok [keynote].
Proof. reflexivity. Qed.

(** X7. Raising the threshold of [get_events_by_fuzzy_title] only removes
    events: against the same answers of the server, the result for the
    higher threshold is the result for the lower one with some events left
    out. *)
Theorem get_events_by_fuzzy_title_monotone
    (net : network) (fuzz : fuzz_module) (conference : Conference.t)
    (search_title : string) (low high : Z)
    (log log1 log2 : list request) (kept1 kept2 : list Event.t) :
  (low <= high)%Z ->
  get_events_by_fuzzy_title net (Some fuzz) conference search_title (Some low) log
  = (log1, Ok kept1) ->
  get_events_by_fuzzy_title net (Some fuzz) conference search_title (Some high) log
  = (log2, Ok kept2) ->
  log1 = log2 /\ subseq kept2 kept1.
Proof.
  intros Hle H1 H2.
  unfold get_events_by_fuzzy_title, bind in H1, H2.
  destruct (get_conference_events net conference log) as [l [events|e]];
    [| discriminate].
  cbn in H1, H2. unfold ret in H1, H2.
  injection H1 as <- <-. injection H2 as <- <-.
  split; [reflexivity |].
  apply filter_subseq_filter. intros e. rewrite !Z.geb_leb, !Z.leb_le. lia.
Qed.

Lemma get_events_by_fuzzy_title_monotone_witness :
  let net := serving (JConference
                        (conference_of "38c3"
                           [event_of "Hello World" None;
                            event_of "Completely Different" None])) in
  [GET "https://api.media.ccc.de/public/conferences/38c3"]
  = [GET "https://api.media.ccc.de/public/conferences/38c3"]
  /\ subseq [event_of "Hello World" None]
            [event_of "Hello World" None; event_of "Completely Different" None].
Proof.
  intros net.
  apply (get_events_by_fuzzy_title_monotone net exact_fuzz
           (conference_of "38c3" []) "hello world" 0 70 []).
  - lia.
  - reflexivity.
  - reflexivity.
Defined.

(** X8. Once the recordings of the event have been obtained,
    [get_event_recordings_by_language] and [get_event_recordings_by_format]
    keep, in their order, exactly the recordings whose [language],
    respectively [mime_type], is the given one, and issue no request of
    their own. *)
Theorem get_event_recordings_by_language_and_format
    (net : network) (event : Event.t) (wanted : string)
    (log log' : list request) (recordings : list Recording.t) :
  get_event_recordings net event log = (log', Ok recordings) ->
  (exists kept,
      get_event_recordings_by_language net event wanted log = (log', Ok kept)
      /\ subseq kept recordings
      /\ forall r, In r kept
                   <-> In r recordings /\ Recording.language r = wanted)
  /\ (exists kept,
        get_event_recordings_by_format net event wanted log = (log', Ok kept)
        /\ subseq kept recordings
        /\ forall r, In r kept
                     <-> In r recordings /\ Recording.mime_type r = wanted).
Proof.
  intros Hrec. split; eexists;
    (split; [unfold get_event_recordings_by_language,
               get_event_recordings_by_format, bind;
             rewrite Hrec; reflexivity |]);
    (split; [apply filter_subseq |]);
    intros r; now rewrite filter_In, String.eqb_eq.
Qed.

Lemma get_event_recordings_by_language_and_format_witness :
  let recordings := [mp4_small; mp4_medium; mp3] in
  (exists kept,
      get_event_recordings_by_language unreachable
        (event_of "t" (Some recordings)) "deu" []
      = ([], Ok kept)
      /\ subseq kept recordings
      /\ forall r, In r kept <-> In r recordings /\ Recording.language r = "deu")
  /\ (exists kept,
        get_event_recordings_by_format unreachable
          (event_of "t" (Some recordings)) "deu" []
        = ([], Ok kept)
        /\ subseq kept recordings
        /\ forall r, In r kept
                     <-> In r recordings /\ Recording.mime_type r = "deu").
Proof.
  intros recordings.
  apply (get_event_recordings_by_language_and_format unreachable
           (event_of "t" (Some recordings)) "deu" [] [] recordings).
  reflexivity.
Defined.

Lemma prefix_app (p s : string) :
  prefix p s = true -> exists rest, s = (p ++ rest)%string.
Proof.
  revert s; induction p as [|a p IH]; intros s H.
  - now exists s.
  - destruct s as [|b s]; [discriminate |]. simpl in H.
    destruct (ascii_dec a b) as [<-|]; [| discriminate].
    destruct (IH _ H) as [rest ->]. now exists rest.
Qed.

(** X9. A recording that [get_event_audio_recording] returns is one of the
    recordings of the event, has the requested language, and has a
    [mime_type] that starts with [audio/]. *)
Theorem get_event_audio_recording_sound
    (net : network) (event : Event.t) (language : string)
    (log log' log'' : list request) (recordings : list Recording.t)
    (chosen : Recording.t) :
  get_event_recordings net event log = (log', Ok recordings) ->
  get_event_audio_recording net event language log = (log'', Ok (Some chosen)) ->
  In chosen recordings
  /\ Recording.language chosen = language
  /\ exists subtype, Recording.mime_type chosen = ("audio/" ++ subtype)%string.
Proof.
  intros Hrec Hrun.
  unfold get_event_audio_recording, get_event_recordings_by_language, bind in Hrun.
  rewrite Hrec in Hrun. cbn in Hrun. unfold ret in Hrun.
  rewrite audio_of_candidates in Hrun. injection Hrun as _ Hchosen.
  assert (Hin : In chosen (audio_candidates language recordings)).
  { destruct (audio_of_spec (audio_candidates language recordings)
                (audio_candidates_audio language recordings))
      as [[_ H]|[(r & H & (b & a & E & _))|(_ & r & rest & E & H)]];
      rewrite Hchosen in H; try discriminate; injection H as <-;
      rewrite E; [apply in_elt | now left]. }
  unfold audio_candidates in Hin. apply filter_In in Hin as [Hin Htest].
  apply andb_prop in Htest as [Hlang Haudio].
  split; [exact Hin |]. split; [now apply String.eqb_eq |].
  now apply prefix_app.
Qed.

Lemma get_event_audio_recording_sound_witness :
  In opus [mp4_large; mp3; opus]
  /\ Recording.language opus = "eng"
  /\ exists subtype, Recording.mime_type opus = ("audio/" ++ subtype)%string.
Proof.
  apply (get_event_audio_recording_sound unreachable
           (event_of "t" (Some [mp4_large; mp3; opus])) "eng" [] [] []
           [mp4_large; mp3; opus] opus).
  - reflexivity.
  - reflexivity.
Defined.

End Filters.

(** ** Looking up recordings and conferences *)

Module Lookup.
Import PyStr Utils Constants Http Client Spec PyStrFacts UtilsFacts
  PyListFacts Fetching Examples.
Local Open Scope list_scope.

Lemma extract_recording_id_Some (url d : string) :
  extract_recording_id url = Some d <->
  digit_run d /\ (ends_with_recording url d \/ ends_with_recording_lf url d).
Proof. apply ExtractRecordingId.Some_iff. Qed.

Lemma truthy_digit_run (d : string) : digit_run d -> truthy d = true.
Proof. intros [Hne _]. destruct d; [now elim Hne | reflexivity]. Qed.

(** [get_recording_by_url] on a text in which an identifier is found. *)
Lemma get_recording_by_url_found (net : network) (url d : string)
    (log : list request) :
  extract_recording_id url = Some d ->
  get_recording_by_url net url log
  = match get_recording net d log with
    | (log', Ok recording) => (log', Ok (Some recording))
    | (log', Raise e) => (log', Raise e)
    end.
Proof.
  intros Hd. unfold get_recording_by_url. rewrite Hd.
  apply extract_recording_id_Some in Hd as [Hd _].
  rewrite (truthy_digit_run d Hd). cbn [negb]. unfold bind.
  now destruct (get_recording net d log) as [log' [r|e]].
Qed.




(** X11. The address under which [get_recording] fetches an identifier
    leads back to it: for a non-empty digit string [d],
    [get_recording_by_url] of [BASE_URL/recordings/<d>] does what
    [get_recording] of [d] does. *)
Theorem get_recording_by_url_of_endpoint
    (net : network) (d : string) (log : list request) :
  digit_run d ->
  extract_recording_id (BASE_URL ++ "/recordings/" ++ d) = Some d
  /\ get_recording_by_url net (BASE_URL ++ "/recordings/" ++ d) log
     = match get_recording net d log with
       | (log', Ok recording) => (log', Ok (Some recording))
       | (log', Raise e) => (log', Raise e)
       end.
Proof.
  intros Hd.
  assert (E : extract_recording_id (BASE_URL ++ "/recordings/" ++ d) = Some d).
  { apply extract_recording_id_Some. split; [exact Hd |].
    left. now exists BASE_URL. }
  split; [exact E | now apply get_recording_by_url_found].
Qed.

Lemma get_recording_by_url_of_endpoint_witness :
  extract_recording_id "https://api.media.ccc.de/public/recordings/7" = Some "7"
  /\ get_recording_by_url (serving (JRecording mp3))
       "https://api.media.ccc.de/public/recordings/7" []
     = ([GET "https://api.media.ccc.de/public/recordings/7"], Ok (Some mp3)).
Proof.
  apply (get_recording_by_url_of_endpoint (serving (JRecording mp3)) "7" []).
  split; [discriminate | reflexivity].
Defined.

(** X12. Once the recordings of the event have been obtained,
    [get_event_recording_by_id] returns the first recording whose [url]
    yields the given identifier, and [None] when no recording does. An
    identifier that is not a non-empty digit string finds nothing. *)
Theorem get_event_recording_by_id_spec
    (net : network) (event : Event.t) (recording_id : string)
    (log log' : list request) (recordings : list Recording.t) :
  get_event_recordings net event log = (log', Ok recordings) ->
  let has_id r := extract_recording_id (Recording.url r) = Some recording_id in
  exists result,
    get_event_recording_by_id net event recording_id log = (log', Ok result)
    /\ match result with
       | Some r => first_such has_id recordings r
       | None => Forall (fun r => ~ has_id r) recordings
       end
    /\ (~ digit_run recording_id -> result = None).
Proof.
  intros Hrec has_id.
  eexists. split.
  - unfold get_event_recording_by_id, bind. rewrite Hrec. reflexivity.
  - pose proof (find_first_such
                  (fun recording =>
                     match extract_recording_id (Recording.url recording) with
                     | Some i => (i =? recording_id)%string
                     | None => false
                     end)
                  has_id recordings) as H.
    assert (Hiff : forall r,
               match extract_recording_id (Recording.url r) with
               | Some i => (i =? recording_id)%string
               | None => false
               end = true <-> has_id r).
    { intros r. unfold has_id.
      destruct (extract_recording_id (Recording.url r)) as [i|].
      - rewrite String.eqb_eq. split; [now intros -> | now intros [= ->]].
      - split; discriminate. }
    specialize (H Hiff). split; [exact H |].
    intros Hnot. destruct (find _ recordings) as [r|]; [| reflexivity].
    destruct H as (b & a & _ & Hr & _).
    apply extract_recording_id_Some in Hr as [Hd _]. now elim Hnot.
Qed.

Lemma get_event_recording_by_id_spec_witness :
  exists result,
    get_event_recording_by_id unreachable
      (event_of "t" (Some [mp3; opus])) "12345" []
    = ([], Ok result)
    /\ match result with
       | Some r =>
           first_such
             (fun r => extract_recording_id (Recording.url r) = Some "12345")
             [mp3; opus] r
       | None =>
           Forall (fun r => extract_recording_id (Recording.url r) <> Some "12345")
                  [mp3; opus]
       end
    /\ (~ digit_run "12345" -> result = None).
Proof.
  apply (get_event_recording_by_id_spec unreachable
           (event_of "t" (Some [mp3; opus])) "12345" [] [] [mp3; opus]).
  reflexivity.
Defined.

Example recording_by_id_first :
  snd (get_event_recording_by_id unreachable
         (event_of "t" (Some [mp3; opus])) "12345" [])
  = Ok (Some mp3).
Proof. reflexivity. Qed.

(** X13. The identifier that [extract_recording_id] finds depends on the
    end of the text only: text put in front of a URL that has an identifier
    does not change it. *)
Theorem extract_recording_id_prefix (p url d : string) :
  extract_recording_id url = Some d ->
  extract_recording_id (p ++ url) = Some d.
Proof.
  intros H. apply extract_recording_id_Some in H as [Hd H].
  apply extract_recording_id_Some. split; [exact Hd |].
  destruct H as [[q ->]|[q ->]]; [left | right];
    exists (p ++ q)%string; now rewrite append_assoc.
Qed.

Lemma extract_recording_id_prefix_witness :
  extract_recording_id ("https://api.media.ccc.de/public" ++ "/recordings/7")
  = Some "7".
Proof.
  apply (extract_recording_id_prefix "https://api.media.ccc.de/public"
           "/recordings/7" "7").
  reflexivity.
Defined.

(** X14. A conference of the list that [get_conferences] returns is found
    under its own acronym: [get_conference_by_acronym] then returns a
    conference of the list whose acronym is the same when case is ignored,
    and never [None]. *)
Theorem get_conference_by_acronym_listed
    (net : network) (log log' : list request)
    (conferences : list Conference.t) (c : Conference.t) :
  get_conferences net log = (log', Ok conferences) ->
  In c conferences ->
  exists c',
    get_conference_by_acronym net (Conference.acronym c) log
    = (log', Ok (Some c'))
    /\ In c' conferences
    /\ same_ignoring_case (Conference.acronym c') (Conference.acronym c).
Proof.
  intros Hget Hin.
  unfold get_conference_by_acronym, bind. rewrite Hget. cbn. unfold ret.
  pose proof (find_first_such
                (fun conference =>
                   (lower (Conference.acronym conference)
                    =? lower (Conference.acronym c))%string)
                (fun x => same_ignoring_case (Conference.acronym x)
                                             (Conference.acronym c))
                conferences
                (fun x => String.eqb_eq _ _)) as H.
  destruct (find _ conferences) as [c'|].
  - exists c'. destruct H as (b & a & E & Hc' & _).
    split; [reflexivity |]. split; [| exact Hc'].
    rewrite E. apply in_elt.
  - exfalso. rewrite Forall_forall in H. now apply (H c Hin).
Qed.

Lemma get_conference_by_acronym_listed_witness :
  exists c',
    get_conference_by_acronym
      (serving (JConferences [conference_of "37c3" []; conference_of "38C3" []]))
      "38C3" []
    = ([GET "https://api.media.ccc.de/public/conferences"], Ok (Some c'))
    /\ In c' [conference_of "37c3" []; conference_of "38C3" []]
    /\ same_ignoring_case (Conference.acronym c') "38C3".
Proof.
  apply (get_conference_by_acronym_listed
           (serving (JConferences [conference_of "37c3" []; conference_of "38C3" []]))
           [] _ [conference_of "37c3" []; conference_of "38C3" []]
           (conference_of "38C3" [])).
  - reflexivity.
  - right. now left.
Defined.

End Lookup.

(** ** The addresses of the subtitle files *)

Module SubtitleUrls.
Import PyStr Constants Http Client Spec PyStrFacts PyListFacts
  SubtitleProbing Examples.
Local Open Scope list_scope.

(** What follows the last separator has no separator. *)
Lemma rpartition_split_last (sep : ascii) (s : string) :
  rpartition sep (split_last sep s) = None.
Proof.
  unfold split_last. induction s as [|c s IH]; [reflexivity |].
  cbn [rpartition].
  destruct (rpartition sep s) as [[a b]|] eqn:E; [exact IH |].
  destruct (Ascii.eqb c sep) eqn:Ec; [exact E |].
  cbn [rpartition]. now rewrite E, Ec.
Qed.

Lemma rpartition_app_None (sep : ascii) (a b : string) :
  rpartition sep a = None -> rpartition sep b = None ->
  rpartition sep (a ++ b)%string = None.
Proof.
  intros Ha Hb; induction a as [|c a IH]; [exact Hb |].
  cbn [rpartition] in Ha. cbn [append rpartition].
  destruct (rpartition sep a) as [[? ?]|]; [discriminate |].
  rewrite (IH eq_refl).
  now destruct (Ascii.eqb c sep).
Qed.

(** X15. The six files that [get_recording_subtitles] probes lie in one
    directory, and the file of a language and an extension is named
    [<guid>-<language>.<extension>], where [<guid>] is what follows the last
    [/] of the [event_url] of the recording. *)
Theorem subtitle_url_parts (recording : Recording.t) :
  let guid := split_last "/" (Recording.event_url recording) in
  exists dir,
    forall c,
      In c subtitle_candidates ->
      let name := (guid ++ "-" ++ fst c ++ "." ++ snd c)%string in
      subtitle_url recording (fst c) (snd c) = (dir ++ "/" ++ name)%string
      /\ split_last "/" (subtitle_url recording (fst c) (snd c)) = name
      /\ rsplit1_head "/" (subtitle_url recording (fst c) (snd c)) = dir.
Proof.
  intros guid.
  exists (rsplit1_head "/"
            (replace
               (replace
                  (replace (Recording.recording_url recording)
                           ("/" ++ Recording.folder recording ++ "/") "/")
                  "cdn.media.ccc.de" "static.media.ccc.de")
               "/congress/" "/media/congress/"))%string.
  set (dir := rsplit1_head "/" _).
  intros c Hc name.
  assert (Hname : rpartition slash name = None).
  { unfold name. apply rpartition_app_None.
    - apply rpartition_split_last.
    - simpl in Hc.
      repeat (destruct Hc as [<-|Hc]; [reflexivity |]). destruct Hc. }
  pose proof (rpartition_app "/"%char dir name Hname) as H.
  assert (E : subtitle_url recording (fst c) (snd c)
              = (dir ++ String "/" name)%string) by reflexivity.
  split; [exact E |].
  rewrite E. unfold split_last, rsplit1_head. now rewrite H.
Qed.

Lemma subtitle_url_parts_witness :
  split_last "/" (subtitle_url mp4_large "deu" "vtt") = "abc-1-deu.vtt".
Proof.
  destruct (subtitle_url_parts mp4_large) as [dir H].
  exact (proj1 (proj2 (H ("deu", "vtt")
                         (or_intror (or_intror (or_intror (or_introl eq_refl))))))).
Defined.

Example subtitle_url_of_example :
  subtitle_url mp4_large "deu" "vtt"
  = "https://static.media.ccc.de/media/congress/2024/abc-1-deu.vtt".
Proof. reflexivity. Qed.

Lemma probe_request_inj (recording : Recording.t) (c c' : string * string) :
  In c subtitle_candidates -> In c' subtitle_candidates ->
  probe_request recording c = probe_request recording c' -> c = c'.
Proof.
  intros Hc Hc'. unfold probe_request, subtitle_url.
  intros H. injection H as H.
  apply append_inv_head in H. injection H as H.
  apply append_inv_head in H. injection H as H.
  simpl in Hc, Hc'.
  repeat (destruct Hc as [<-|Hc]; [| ]);
    try (now destruct Hc);
    repeat (destruct Hc' as [<-|Hc']; [| ]);
    try (now destruct Hc');
    first [reflexivity | discriminate H].
Qed.

(** X16. [get_recording_subtitles] probes no address twice: the six
    requests of a scan are pairwise different. *)
Theorem probe_requests_distinct (recording : Recording.t) :
  NoDup (map (probe_request recording) subtitle_candidates).
Proof.
  assert (Hnodup : NoDup subtitle_candidates).
  { repeat (constructor; [simpl; intuition discriminate |]). constructor. }
  assert (Hinj : forall l,
             incl l subtitle_candidates -> NoDup l ->
             NoDup (map (probe_request recording) l)).
  { induction l as [|c l IH]; intros Hincl Hl; [constructor |].
    inversion Hl as [|? ? Hnotin Hl']; subst. cbn [map]. constructor.
    - intros Hin. apply in_map_iff in Hin as (c' & E & Hc').
      apply Hnotin.
      rewrite <- (probe_request_inj recording c' c); trivial.
      + apply Hincl. now right.
      + apply Hincl. now left.
    - apply IH; [| exact Hl'].
      intros x Hx. apply Hincl. now right. }
  apply Hinj; [apply incl_refl | exact Hnodup].
Qed.

Lemma truthy_app_char (a b : string) (c : ascii) :
  truthy (a ++ String c b) = true.
Proof. now destruct a. Qed.

Lemma get_subtitle_content_log (net : network) (subtitle : Subtitle.t)
    (log : list request) :
  truthy (Subtitle.url subtitle) = true ->
  fst (get_subtitle_content net subtitle log)
  = log ++ [GET (Subtitle.url subtitle)].
Proof.
  intros Ht. unfold get_subtitle_content. rewrite Ht. cbn [negb].
  unfold bind, session_get, send, raise_for_status.
  destruct (net log _) as [|r]; [reflexivity |].
  now destruct ((400 <=? status_code r) && (status_code r <? 600))%Z.
Qed.

(** X17. Every subtitle that [get_recording_subtitles] returns has been
    probed with a [HEAD] of its [url], and [get_subtitle_content] fetches it
    with one [GET] of the same [url]; it never takes the way out for an
    empty [url]. *)
Theorem discovered_subtitle_content
    (net : network) (recording : Recording.t)
    (log log' : list request) (subtitles : list Subtitle.t) (s : Subtitle.t) :
  get_recording_subtitles net recording log = (log', Ok subtitles) ->
  In s subtitles ->
  In (HEAD (Subtitle.url s)) log'
  /\ forall net' log'',
       fst (get_subtitle_content net' s log'')
       = log'' ++ [GET (Subtitle.url s)].
Proof.
  intros Hrun Hs.
  destruct (string_dec (Recording.recording_url recording) "") as [He|Hne].
  - rewrite (no_url_no_probes net recording log He) in Hrun.
    injection Hrun as _ <-. destruct Hs.
  - pose proof (get_recording_subtitles_run net recording log Hne) as Hr.
    rewrite Hrun in Hr.
    assert (Es : subtitles = discovered net recording log subtitle_candidates)
      by congruence.
    assert (El : log' = log ++ map (probe_request recording) subtitle_candidates)
      by congruence.
    clear Hr. subst subtitles log'.
    apply discovered_inv in Hs as (c & Hc & ->). split.
    + apply in_or_app. right.
      change (HEAD (Subtitle.url (subtitle_for recording c)))
        with (probe_request recording c).
      now apply in_map.
    + intros net' log''. apply get_subtitle_content_log.
      unfold subtitle_for, subtitle_url. cbn [Subtitle.url].
      apply truthy_app_char.
Qed.

Lemma discovered_subtitle_content_witness :
  In (HEAD "https://static.media.ccc.de/media/congress/2024/abc-1-deu.vtt")
     (map (probe_request mp4_large) subtitle_candidates)
  /\ forall net' log'',
       fst (get_subtitle_content net' (subtitle_for mp4_large ("deu", "vtt")) log'')
       = log'' ++ [GET "https://static.media.ccc.de/media/congress/2024/abc-1-deu.vtt"].
Proof.
  apply (discovered_subtitle_content static_server mp4_large []
           (map (probe_request mp4_large) subtitle_candidates)
           [subtitle_for mp4_large ("eng", "srt");
            subtitle_for mp4_large ("deu", "vtt")]
           (subtitle_for mp4_large ("deu", "vtt"))).
  - reflexivity.
  - right. now left.
Defined.

End SubtitleUrls.

(** ** Failures of the fetches behind the derived methods *)

Module Propagation.
Import PyStr Constants Http Client Spec Examples Talks.
Local Open Scope list_scope.

(** X18. The methods that start from the recordings of an event add
    nothing to a failure of [get_event_recordings]: each of them raises the
    same exception after the same requests. *)
Theorem hydration_failure_propagates
    (net : network) (event : Event.t) (wanted : string)
    (log log' : list request) (e : exn) :
  get_event_recordings net event log = (log', Raise e) ->
  get_event_recordings_by_language net event wanted log = (log', Raise e)
  /\ get_event_recordings_by_format net event wanted log = (log', Raise e)
  /\ get_event_best_recording net event wanted log = (log', Raise e)
  /\ get_event_audio_recording net event wanted log = (log', Raise e)
  /\ get_event_recording_by_id net event wanted log = (log', Raise e).
Proof.
  intros H.
  unfold get_event_best_recording, get_event_audio_recording,
    get_event_recording_by_id, get_event_recordings_by_language,
    get_event_recordings_by_format, bind.
  rewrite H. repeat split.
Qed.

Lemma hydration_failure_propagates_witness :
  let rq := GET "https://api.media.ccc.de/public/events/abc-1" in
  get_event_recordings_by_language (answering 503) (event_of "t" None) "eng" []
  = ([rq], Raise (HTTPError 503))
  /\ get_event_recordings_by_format (answering 503) (event_of "t" None) "eng" []
     = ([rq], Raise (HTTPError 503))
  /\ get_event_best_recording (answering 503) (event_of "t" None) "eng" []
     = ([rq], Raise (HTTPError 503))
  /\ get_event_audio_recording (answering 503) (event_of "t" None) "eng" []
     = ([rq], Raise (HTTPError 503))
  /\ get_event_recording_by_id (answering 503) (event_of "t" None) "eng" []
     = ([rq], Raise (HTTPError 503)).
Proof.
  intros rq.
  apply (hydration_failure_propagates (answering 503) (event_of "t" None)
           "eng" [] [rq] (HTTPError 503)).
  reflexivity.
Defined.

(** X19. The methods that start from a fetch of the conferences add nothing
    to its failure either: [get_events_by_person], [get_events_by_tag] and,
    when [fuzzywuzzy] is there, [get_events_by_fuzzy_title] raise what
    [get_conference_events] raises, and [get_conference_by_acronym] raises
    what [get_conferences] raises. *)
Theorem conference_failure_propagates
    (net : network) (conference : Conference.t) (wanted : string)
    (log log' : list request) (e : exn) :
  (get_conference_events net conference log = (log', Raise e) ->
   get_events_by_person net conference wanted log = (log', Raise e)
   /\ get_events_by_tag net conference wanted log = (log', Raise e)
   /\ forall fuzz threshold,
        get_events_by_fuzzy_title net (Some fuzz) conference wanted threshold log
        = (log', Raise e))
  /\ (get_conferences net log = (log', Raise e) ->
      get_conference_by_acronym net wanted log = (log', Raise e)).
Proof.
  split; intros H.
  - unfold get_events_by_person, get_events_by_tag, get_events_by_fuzzy_title,
      bind.
    rewrite H. repeat split.
  - unfold get_conference_by_acronym, bind. now rewrite H.
Qed.

Lemma conference_failure_propagates_witness :
  get_events_by_person unreachable (conference_of "38c3" [keynote]) "alice" []
  = ([GET "https://api.media.ccc.de/public/conferences/38c3"],
     Raise ConnectionError)
  /\ get_conference_by_acronym unreachable "38c3" []
     = ([GET "https://api.media.ccc.de/public/conferences"],
        Raise ConnectionError).
Proof.
  split.
  - apply (proj1 (conference_failure_propagates unreachable
                    (conference_of "38c3" [keynote]) "alice" [] _
                    ConnectionError)).
    reflexivity.
  - apply (proj2 (conference_failure_propagates unreachable
                    (conference_of "38c3" [keynote]) "38c3" [] _
                    ConnectionError)).
    reflexivity.
Defined.

End Propagation.
